(** * Invadr: offline-first reconciliation core

    A shallow embedding of the record store ([storageService.ts]), the
    geometry utilities ([utils/geo.ts]), the outbreak detector
    ([outbreakService.ts]), the sync engine ([syncManager.ts]) and the
    merge performed by [refresh] ([ReportsContext.tsx]).

    Conventions of the embedding.
    - A JavaScript [number] carried by a record (coordinates, confidence,
      a number of days) is a rational: every finite double is one, and
      comparisons of doubles are exact.  Sums and quotients are taken
      exactly; rounding is not modelled.
    - The trigonometry of the haversine formula is taken over the reals.
    - [timestamp] holds the value of [new Date(r.timestamp).getTime()],
      an integral number of milliseconds; the ISO 8601 string is assumed
      well formed.
    - [Date.now()] is an explicit argument [now].
    - AsyncStorage is a pair of lists (the parsed JSON of the two keys);
      reads and writes of the storage succeed.
    - The network, the classifier, the backend and the subscribed
      listeners are a record [Remote] of answers; a rejected promise
      and a throwing listener are exceptions of the monad [M].
    - An [async] function runs alone from one [await] to the next;
      [Interleaving] cuts [runSync] at its first [await]s. *)

From Stdlib Require Import String List ZArith QArith Qreals Reals.
From Stdlib Require Import Lra Lia Bool Permutation Sorted ListSet.
From Stdlib Require Import Qminmax Qround Ascii.
Import ListNotations.

(* ------------------------------------------------------------------ *)
(** * types/index.ts *)

Inductive RiskLevel : Type := low | medium | high | unknown.

Inductive SyncStatus : Type := pending | syncing | uploaded | failed.

Record GPSCoordinates : Type := {
  latitude : Q;
  longitude : Q;
  accuracy : option Q
}.

Record TopPrediction : Type := {
  top_species_name : string;
  top_confidence : Q;
  top_risk_level : string
}.

(** [MLPrediction] and [PredictResponse] are one record: the response
    of the classifier is a prediction with the optional
    [top_predictions]. *)
Record MLPrediction : Type := {
  species_name : string;
  confidence_score : Q;
  invasive_risk_level : RiskLevel;
  top_predictions : option (list TopPrediction)
}.

Record InvasiveReport : Type := {
  id : string;
  imageUri : string;
  audioUri : option string;
  audioDuration : option Q;
  coordinates : GPSCoordinates;
  timestamp : Z;
  notes : string;
  prediction : option MLPrediction;
  syncStatus : SyncStatus;
  userId : string
}.

Record OutbreakZone : Type := {
  zoneId : string;
  centerCoordinates : GPSCoordinates;
  radiusKm : Q;
  reportCount : nat;
  detectedAt : Z;
  reports : list InvasiveReport
}.

Record SyncReportPayload : Type := {
  p_id : string;
  p_imageUri : string;
  p_audioUri : option string;
  p_latitude : Q;
  p_longitude : Q;
  p_timestamp : Z;
  p_notes : string;
  p_prediction : option MLPrediction;
  p_userId : string
}.

Definition RiskLevel_eqb (a b : RiskLevel) : bool :=
  match a, b with
  | low, low | medium, medium | high, high | unknown, unknown => true
  | _, _ => false
  end.

Definition SyncStatus_eqb (a b : SyncStatus) : bool :=
  match a, b with
  | pending, pending | syncing, syncing
  | uploaded, uploaded | failed, failed => true
  | _, _ => false
  end.

(** [{ ...r, syncStatus: status }] *)
Definition withSyncStatus (r : InvasiveReport) (status : SyncStatus)
  : InvasiveReport :=
  {| id := id r; imageUri := imageUri r; audioUri := audioUri r;
     audioDuration := audioDuration r; coordinates := coordinates r;
     timestamp := timestamp r; notes := notes r;
     prediction := prediction r; syncStatus := status;
     userId := userId r |}.

(** [{ ...r, prediction }] *)
Definition withPrediction (r : InvasiveReport) (p : MLPrediction)
  : InvasiveReport :=
  {| id := id r; imageUri := imageUri r; audioUri := audioUri r;
     audioDuration := audioDuration r; coordinates := coordinates r;
     timestamp := timestamp r; notes := notes r;
     prediction := Some p; syncStatus := syncStatus r;
     userId := userId r |}.

(** [r'] is [r] but for its [syncStatus]. *)
Definition restatusOf (r' r : InvasiveReport) : Prop :=
  r' = withSyncStatus r (syncStatus r').

(** [r.syncStatus === 'pending' || r.syncStatus === 'failed'] *)
Definition pendingOrFailed (r : InvasiveReport) : bool :=
  SyncStatus_eqb (syncStatus r) pending
  || SyncStatus_eqb (syncStatus r) failed.

(* ------------------------------------------------------------------ *)
(** * constants: OUTBREAK_CONFIG *)

Module OUTBREAK_CONFIG.
Definition MIN_REPORTS : nat := 5.
Definition RADIUS_KM : Q := 5.
Definition TIME_WINDOW_DAYS : Q := 7.
Definition MIN_CONFIDENCE : Q := 0.75.
End OUTBREAK_CONFIG.

(* ------------------------------------------------------------------ *)
(** * utils/geo.ts *)

Module Geo.

Local Open Scope R_scope.

(** [Math.atan2(y, x)] on the reals. *)
Definition atan2 (y x : R) : R :=
  if Rlt_dec 0 x then atan (y / x)
  else if Rlt_dec x 0 then
    (if Rle_dec 0 y then atan (y / x) + PI else atan (y / x) - PI)
  else if Rlt_dec 0 y then PI / 2
  else if Rlt_dec y 0 then - (PI / 2)
  else 0.

Definition toRad (deg : R) : R := (deg * PI) / 180.

Definition haversineDistanceKm (lat1 lon1 lat2 lon2 : R) : R :=
  let R0 := 6371 in
  let dLat := toRad (lat2 - lat1) in
  let dLon := toRad (lon2 - lon1) in
  let a :=
    sin (dLat / 2) ^ 2
    + cos (toRad lat1) * cos (toRad lat2) * sin (dLon / 2) ^ 2 in
  let c := 2 * atan2 (sqrt a) (sqrt (1 - a)) in
  R0 * c.

(** [isWithinDays(dateStr, days)], with [date] the parsed [dateStr]
    and [now] the reading of [Date.now()]. *)
Definition isWithinDays (now : Z) (date : Z) (days : Q) : bool :=
  let windowMs := (days * 24 * 60 * 60 * 1000)%Q in
  Qle_bool (inject_Z (now - date)) windowMs.

End Geo.

(* ------------------------------------------------------------------ *)
(** * The comparator sort used by [getAllReports] and [refresh]

    [xs.sort((a, b) => time(b) - time(a))]: a stable sort, most recent
    first.  The comparator is a total preorder, so the result of every
    stable sort is this one. *)

Fixpoint insertByTimestamp (x : InvasiveReport) (l : list InvasiveReport)
  : list InvasiveReport :=
  match l with
  | [] => [x]
  | y :: l' =>
      if (timestamp x <? timestamp y)%Z
      then y :: insertByTimestamp x l'
      else x :: l
  end.

Definition sortByTimestampDesc (l : list InvasiveReport)
  : list InvasiveReport :=
  fold_right insertByTimestamp [] l.

(** [a] is not older than [b]. *)
Definition notOlder (a b : InvasiveReport) : Prop :=
  (timestamp b <= timestamp a)%Z.

(* ------------------------------------------------------------------ *)
(** * services/storageService.ts *)

Record Storage : Type := {
  PENDING_REPORTS : list InvasiveReport;
  SYNCED_REPORTS : list InvasiveReport
}.

Module StorageService.

Definition emptyStorage : Storage :=
  {| PENDING_REPORTS := []; SYNCED_REPORTS := [] |}.

Definition getPendingReports (s : Storage) : list InvasiveReport :=
  PENDING_REPORTS s.

Definition getSyncedReports (s : Storage) : list InvasiveReport :=
  SYNCED_REPORTS s.

Definition getAllReports (s : Storage) : list InvasiveReport :=
  sortByTimestampDesc (getPendingReports s ++ getSyncedReports s).

Definition saveReport (report : InvasiveReport) (s : Storage) : Storage :=
  let pend := getPendingReports s in
  let filtered :=
    filter (fun r => negb (String.eqb (id r) (id report))) pend in
  {| PENDING_REPORTS := filtered ++ [report];
     SYNCED_REPORTS := SYNCED_REPORTS s |}.

Definition updateReportStatus (i : string) (status : SyncStatus)
    (s : Storage) : Storage :=
  let pend := getPendingReports s in
  let updated :=
    map (fun r => if String.eqb (id r) i
                  then withSyncStatus r status else r) pend in
  {| PENDING_REPORTS := updated; SYNCED_REPORTS := SYNCED_REPORTS s |}.

Definition markReportSynced (i : string) (s : Storage) : Storage :=
  let pend := getPendingReports s in
  let synced := getSyncedReports s in
  match find (fun r => String.eqb (id r) i) pend with
  | None => s
  | Some target =>
      let newPending :=
        filter (fun r => negb (String.eqb (id r) i)) pend in
      let newSynced := synced ++ [withSyncStatus target uploaded] in
      {| PENDING_REPORTS := newPending; SYNCED_REPORTS := newSynced |}
  end.

Definition deleteReport (i : string) (s : Storage) : Storage :=
  let pend := getPendingReports s in
  let synced := getSyncedReports s in
  {| PENDING_REPORTS :=
       filter (fun r => negb (String.eqb (id r) i)) pend;
     SYNCED_REPORTS :=
       filter (fun r => negb (String.eqb (id r) i)) synced |}.

Definition clearAllReports (_ : Storage) : Storage := emptyStorage.

(** A store operation, and a sequence of them run from a state. *)
Inductive StoreOp : Type :=
| SaveReport (report : InvasiveReport)
| UpdateReportStatus (i : string) (status : SyncStatus)
| MarkReportSynced (i : string)
| DeleteReport (i : string).

Definition applyOp (s : Storage) (op : StoreOp) : Storage :=
  match op with
  | SaveReport report => saveReport report s
  | UpdateReportStatus i status => updateReportStatus i status s
  | MarkReportSynced i => markReportSynced i s
  | DeleteReport i => deleteReport i s
  end.

Definition runOps (ops : list StoreOp) (s : Storage) : Storage :=
  fold_left applyOp ops s.

(** The records held by the two buckets, pending first. *)
Definition stored (s : Storage) : list InvasiveReport :=
  PENDING_REPORTS s ++ SYNCED_REPORTS s.

(** Each record stored in [s'] is a record stored in [s], but for its
    status. *)
Definition comesFrom (s' s : Storage) : Prop :=
  forall r', In r' (stored s') ->
             exists r, In r (stored s) /\ restatusOf r' r.

(** The ids held by the two buckets, pending first. *)
Definition storedIds (s : Storage) : list string :=
  map id (PENDING_REPORTS s) ++ map id (SYNCED_REPORTS s).

Definition inBucket (i : string) (bucket : list InvasiveReport) : bool :=
  existsb (fun r => String.eqb (id r) i) bucket.

(** Every [SaveReport] of the sequence is given an id that the synced
    bucket does not hold at that moment. *)
Fixpoint savesAvoidSynced (ops : list StoreOp) (s : Storage) : bool :=
  match ops with
  | [] => true
  | op :: ops' =>
      match op with
      | SaveReport report => negb (inBucket (id report) (SYNCED_REPORTS s))
      | _ => true
      end
      && savesAvoidSynced ops' (applyOp s op)
  end.

End StorageService.

(* ------------------------------------------------------------------ *)
(** * services/outbreakService.ts *)

Module OutbreakService.

Import OUTBREAK_CONFIG.

Definition isHighRisk (report : InvasiveReport) : bool :=
  match prediction report with
  | None => false
  | Some p =>
      RiskLevel_eqb (invasive_risk_level p) high
      && Qle_bool MIN_CONFIDENCE (confidence_score p)
  end.

(** The predicate of the cluster filter:
    [haversineDistanceKm(anchor, r) <= OUTBREAK_CONFIG.RADIUS_KM]. *)
Definition withinRadius (anchor r : InvasiveReport) : bool :=
  if Rle_dec
       (Geo.haversineDistanceKm
          (Q2R (latitude (coordinates anchor)))
          (Q2R (longitude (coordinates anchor)))
          (Q2R (latitude (coordinates r)))
          (Q2R (longitude (coordinates r))))
       (Q2R RADIUS_KM)
  then true else false.

(** [cluster.reduce((s, r) => s + f(r), 0) / cluster.length] *)
Definition average (f : InvasiveReport -> Q) (cluster : list InvasiveReport)
  : Q :=
  (fold_left (fun s r => s + f r) cluster 0
   / inject_Z (Z.of_nat (length cluster)))%Q.

(** The state of the sweep: the zones pushed so far and the set
    [used] of claimed ids. *)
Record Sweep : Type := {
  zones : list OutbreakZone;
  used : set string
}.

Definition has (u : set string) (i : string) : bool :=
  set_mem string_dec i u.

Definition addAll (u : set string) (cluster : list InvasiveReport)
  : set string :=
  fold_left (fun acc r => set_add string_dec (id r) acc) cluster u.

Section Detector.

(** The reading of the clock during the pass, and the identifiers
    drawn by [generateId()]: the k-th call returns [generateId k]. *)
Variable now : Z.
Variable generateId : nat -> string.

Definition candidatesOf (reports0 : list InvasiveReport)
  : list InvasiveReport :=
  filter
    (fun r => isHighRisk r
              && Geo.isWithinDays now (timestamp r) TIME_WINDOW_DAYS)
    reports0.

Definition clusterOf (candidates : list InvasiveReport)
    (anchor : InvasiveReport) : list InvasiveReport :=
  filter (fun r => withinRadius anchor r) candidates.

Definition zoneOf (k : nat) (cluster : list InvasiveReport)
  : OutbreakZone :=
  let avgLat := average (fun r => latitude (coordinates r)) cluster in
  let avgLon := average (fun r => longitude (coordinates r)) cluster in
  {| zoneId := generateId k;
     centerCoordinates :=
       {| latitude := avgLat; longitude := avgLon; accuracy := None |};
     radiusKm := RADIUS_KM;
     reportCount := length cluster;
     detectedAt := now;
     reports := cluster |}.

(** One iteration of [for (const anchor of candidates)]. *)
Definition visit (candidates : list InvasiveReport) (st : Sweep)
    (anchor : InvasiveReport) : Sweep :=
  if has (used st) (id anchor) then st
  else
    let cluster := clusterOf candidates anchor in
    if (MIN_REPORTS <=? length cluster)%nat then
      {| zones := zones st ++ [zoneOf (length (zones st)) cluster];
         used := addAll (used st) cluster |}
    else st.

Definition sweep (candidates : list InvasiveReport) (st : Sweep)
    (anchors : list InvasiveReport) : Sweep :=
  fold_left (visit candidates) anchors st.

Definition startSweep : Sweep := {| zones := []; used := [] |}.

Definition detectOutbreaks (reports0 : list InvasiveReport)
  : list OutbreakZone :=
  let candidates := candidatesOf reports0 in
  zones (sweep candidates startSweep candidates).

End Detector.

End OutbreakService.


(* ------------------------------------------------------------------ *)
(** * Effects: mutable application state and exceptions

    [World] is what the asynchronous functions read and write: the
    storage, the module variable [isSyncing] of the sync manager, the
    React state of the reports context, and two logs: the arguments
    passed to [notifyListeners] and to [uploadReport], oldest first. *)

Record World : Type := {
  storage : Storage;
  isSyncing : bool;
  notified : list InvasiveReport;
  uploadCalls : list SyncReportPayload;
  ctxReports : list InvasiveReport;
  ctxOutbreakZones : list OutbreakZone;
  isRefreshing : bool
}.

Inductive Completion (A : Type) : Type :=
| Normal (a : A)
| Thrown (err : string).
Arguments Normal {A} a.
Arguments Thrown {A} err.

Definition M (A : Type) : Type := World -> Completion A * World.

Definition ret {A : Type} (a : A) : M A := fun w => (Normal a, w).

Definition throw {A : Type} (err : string) : M A := fun w => (Thrown err, w).

Definition bind {A B : Type} (m : M A) (k : A -> M B) : M B :=
  fun w =>
    match m w with
    | (Normal a, w') => k a w'
    | (Thrown err, w') => (Thrown err, w')
    end.

(** [try { m } catch (err) { handler }] *)
Definition tryCatch {A : Type} (m : M A) (handler : string -> M A) : M A :=
  fun w =>
    match m w with
    | (Normal a, w') => (Normal a, w')
    | (Thrown err, w') => handler err w'
    end.

(** [try { m } finally { cleanup }] *)
Definition tryFinally {A : Type} (m : M A) (cleanup : M unit) : M A :=
  fun w =>
    match m w with
    | (c, w') =>
        match cleanup w' with
        | (Normal _, w'') => (c, w'')
        | (Thrown err, w'') => (Thrown err, w'')
        end
    end.

Definition gets {A : Type} (f : World -> A) : M A := fun w => (Normal (f w), w).

Definition modify (f : World -> World) : M unit := fun w => (Normal tt, f w).

Declare Scope effect_scope.
Delimit Scope effect_scope with effect.
Notation "x <- m ;; k" := (bind m (fun x => k))
  (at level 61, m at next level, right associativity) : effect_scope.
Notation "m ;; k" := (bind m (fun _ => k))
  (at level 61, right associativity) : effect_scope.

(** [for (const x of xs) { body }] *)
Fixpoint forOf {A : Type} (xs : list A) (body : A -> M unit) : M unit :=
  match xs with
  | [] => ret tt
  | x :: xs' => bind (body x) (fun _ => forOf xs' body)
  end.

Definition setStorage (s : Storage) (w : World) : World :=
  {| storage := s; isSyncing := isSyncing w; notified := notified w;
     uploadCalls := uploadCalls w; ctxReports := ctxReports w;
     ctxOutbreakZones := ctxOutbreakZones w;
     isRefreshing := isRefreshing w |}.

Definition setIsSyncing (b : bool) (w : World) : World :=
  {| storage := storage w; isSyncing := b; notified := notified w;
     uploadCalls := uploadCalls w; ctxReports := ctxReports w;
     ctxOutbreakZones := ctxOutbreakZones w;
     isRefreshing := isRefreshing w |}.

Definition logNotified (r : InvasiveReport) (w : World) : World :=
  {| storage := storage w; isSyncing := isSyncing w;
     notified := notified w ++ [r];
     uploadCalls := uploadCalls w; ctxReports := ctxReports w;
     ctxOutbreakZones := ctxOutbreakZones w;
     isRefreshing := isRefreshing w |}.

Definition logUpload (p : SyncReportPayload) (w : World) : World :=
  {| storage := storage w; isSyncing := isSyncing w; notified := notified w;
     uploadCalls := uploadCalls w ++ [p]; ctxReports := ctxReports w;
     ctxOutbreakZones := ctxOutbreakZones w;
     isRefreshing := isRefreshing w |}.

Definition setReports (l : list InvasiveReport) (w : World) : World :=
  {| storage := storage w; isSyncing := isSyncing w; notified := notified w;
     uploadCalls := uploadCalls w; ctxReports := l;
     ctxOutbreakZones := ctxOutbreakZones w;
     isRefreshing := isRefreshing w |}.

Definition setOutbreakZones (z : list OutbreakZone) (w : World) : World :=
  {| storage := storage w; isSyncing := isSyncing w; notified := notified w;
     uploadCalls := uploadCalls w; ctxReports := ctxReports w;
     ctxOutbreakZones := z;
     isRefreshing := isRefreshing w |}.

Definition setIsRefreshing (b : bool) (w : World) : World :=
  {| storage := storage w; isSyncing := isSyncing w; notified := notified w;
     uploadCalls := uploadCalls w; ctxReports := ctxReports w;
     ctxOutbreakZones := ctxOutbreakZones w;
     isRefreshing := b |}.

(** The collaborators behind the narrow interfaces: what the network,
    the classifier, the backend and the subscribers answer. *)
Record Remote : Type := {
  (** [(await NetInfo.fetch()).isConnected] *)
  netIsConnected : bool;
  (** [predictSpecies(imageUri)]: [None] when the call rejects. *)
  predictAnswer : string -> option MLPrediction;
  (** [uploadReport(payload)]: [false] when the call rejects. *)
  uploadAccepted : SyncReportPayload -> bool;
  (** [fetchAllReports()], rows already mapped to reports: [None] when
      the call rejects. *)
  fetchAnswer : option (list InvasiveReport);
  (** Whether some subscribed listener throws on this notification. *)
  listenerThrows : InvasiveReport -> bool
}.

(* ------------------------------------------------------------------ *)
(** * services/syncManager.ts *)

Module SyncManager.

Local Open Scope effect_scope.

Section WithRemote.

Variable remote : Remote.

Definition getPendingReports : M (list InvasiveReport) :=
  gets (fun w => StorageService.getPendingReports (storage w)).

Definition updateReportStatus (i : string) (status : SyncStatus)
  : M unit :=
  modify (fun w =>
    setStorage (StorageService.updateReportStatus i status (storage w)) w).

Definition markReportSynced (i : string) : M unit :=
  modify (fun w =>
    setStorage (StorageService.markReportSynced i (storage w)) w).

(** [listeners.forEach((l) => l(report))] *)
Definition notifyListeners (report : InvasiveReport) : M unit :=
  fun w =>
    if listenerThrows remote report
    then (Thrown "listener", logNotified report w)
    else (Normal tt, logNotified report w).

Definition predictSpecies (uri : string) : M MLPrediction :=
  fun w =>
    match predictAnswer remote uri with
    | Some p => (Normal p, w)
    | None => (Thrown "predict", w)
    end.

Definition uploadReport (payload : SyncReportPayload) : M unit :=
  fun w =>
    if uploadAccepted remote payload
    then (Normal tt, logUpload payload w)
    else (Thrown "upload", logUpload payload w).

Definition NetInfo_fetch : M bool := ret (netIsConnected remote).

(** The object literal passed to [uploadReport]. *)
Definition payloadOf (finalReport : InvasiveReport) : SyncReportPayload :=
  {| p_id := id finalReport;
     p_imageUri := imageUri finalReport;
     p_audioUri := audioUri finalReport;
     p_latitude := latitude (coordinates finalReport);
     p_longitude := longitude (coordinates finalReport);
     p_timestamp := timestamp finalReport;
     p_notes := notes finalReport;
     p_prediction := prediction finalReport;
     p_userId := userId finalReport |}.

(** [let finalReport = { ...report }; if (!finalReport.prediction)
    { try { ... } catch { } }] *)
Definition withBackfill (report : InvasiveReport) : M InvasiveReport :=
  match prediction report with
  | Some _ => ret report
  | None =>
      tryCatch
        (p <- predictSpecies (imageUri report) ;;
         ret (withPrediction report p))
        (fun _ => ret report)
  end.

(** The body of [for (const report of toSync)]. *)
Definition syncOne (report : InvasiveReport) : M unit :=
  updateReportStatus (id report) syncing ;;
  notifyListeners (withSyncStatus report syncing) ;;
  tryCatch
    (finalReport <- withBackfill report ;;
     uploadReport (payloadOf finalReport) ;;
     markReportSynced (id finalReport) ;;
     notifyListeners (withSyncStatus finalReport uploaded))
    (fun _ =>
       updateReportStatus (id report) failed ;;
       notifyListeners (withSyncStatus report failed)).

(** The block guarded by [try { ... } finally]. *)
Definition passBody : M unit :=
  pend <- getPendingReports ;;
  let toSync := filter pendingOrFailed pend in
  forOf toSync syncOne.

Definition runSync : M unit :=
  busy <- gets isSyncing ;;
  if busy then ret tt
  else
    connected <- NetInfo_fetch ;;
    if negb connected then ret tt
    else
      modify (setIsSyncing true) ;;
      tryFinally passBody (modify (setIsSyncing false)).

End WithRemote.

End SyncManager.

(* ------------------------------------------------------------------ *)
(** * The outcome of one record of a pass, in closed form

    What [syncOne] does to the world when no listener throws, written
    without the monad; [SyncFacts.syncOne_normal] relates the two. *)

Module SyncOutcome.

Section WithRemote.

Variable remote : Remote.

(** The value of [finalReport] when [uploadReport] is called. *)
Definition finalOf (report : InvasiveReport) : InvasiveReport :=
  match prediction report with
  | Some _ => report
  | None =>
      match predictAnswer remote (imageUri report) with
      | Some p => withPrediction report p
      | None => report
      end
  end.

(** Whether the upload of this record succeeds. *)
Definition accepted (report : InvasiveReport) : bool :=
  uploadAccepted remote (SyncManager.payloadOf (finalOf report)).

Definition storeAfter (s : Storage) (report : InvasiveReport) : Storage :=
  let s1 := StorageService.updateReportStatus (id report) syncing s in
  if accepted report
  then StorageService.markReportSynced (id report) s1
  else StorageService.updateReportStatus (id report) failed s1.

Definition worldAfter (w : World) (report : InvasiveReport) : World :=
  let w1 :=
    logNotified (withSyncStatus report syncing)
      (setStorage
         (StorageService.updateReportStatus (id report) syncing (storage w))
         w) in
  let w2 := logUpload (SyncManager.payloadOf (finalOf report)) w1 in
  if accepted report
  then
    logNotified (withSyncStatus (finalOf report) uploaded)
      (setStorage
         (StorageService.markReportSynced (id report) (storage w2)) w2)
  else
    logNotified (withSyncStatus report failed)
      (setStorage
         (StorageService.updateReportStatus (id report) failed (storage w2))
         w2).

(** What the processing of [x] does to a pending record [r]. *)
Definition touch (x r : InvasiveReport) : list InvasiveReport :=
  if String.eqb (id r) (id x)
  then (if accepted x then [] else [withSyncStatus r failed])
  else [r].

(** What becomes of a pending record [r] once the records [done] have
    been processed. *)
Definition settle (done : list InvasiveReport) (r : InvasiveReport)
  : list InvasiveReport :=
  if StorageService.inBucket (id r) done
  then (if accepted r then [] else [withSyncStatus r failed])
  else [r].

(** The same for a whole pass over the pending bucket. *)
Definition settlePass (r : InvasiveReport) : list InvasiveReport :=
  if pendingOrFailed r
  then (if accepted r then [] else [withSyncStatus r failed])
  else [r].

End WithRemote.

End SyncOutcome.

(* ------------------------------------------------------------------ *)
(** * contexts/ReportsContext.tsx *)

Module ReportsContext.

Local Open Scope effect_scope.

Section WithRemote.

Variable remote : Remote.
Variable now : Z.
Variable generateId : nat -> string.

Definition fetchAllReports : M (list InvasiveReport) :=
  fun w =>
    match fetchAnswer remote with
    | Some l => (Normal l, w)
    | None => (Thrown "fetch", w)
    end.

(** The merge of [refresh]: server reports take priority; local
    reports not on the server are added when pending or failed. *)
Definition localOnly (local serverReports : list InvasiveReport)
  : list InvasiveReport :=
  let serverIds : set string := map id serverReports in
  filter
    (fun r => negb (set_mem string_dec (id r) serverIds)
              && pendingOrFailed r)
    local.

Definition mergedView (local serverReports : list InvasiveReport)
  : list InvasiveReport :=
  sortByTimestampDesc (serverReports ++ localOnly local serverReports).

Definition refresh : M unit :=
  modify (setIsRefreshing true) ;;
  tryFinally
    (local <- gets (fun w => StorageService.getAllReports (storage w)) ;;
     serverReports <- tryCatch fetchAllReports (fun _ => ret []) ;;
     let all := mergedView local serverReports in
     modify (setReports all) ;;
     modify
       (setOutbreakZones
          (OutbreakService.detectOutbreaks now generateId all)))
    (modify (setIsRefreshing false)).

Definition addReport (report : InvasiveReport) : M unit :=
  modify (fun w =>
    setStorage (StorageService.saveReport report (storage w)) w) ;;
  refresh.

Definition triggerSync : M unit :=
  SyncManager.runSync remote ;;
  refresh.

(** [reports.filter(pending or failed).length] *)
Definition pendingCount (w : World) : nat :=
  length (filter pendingOrFailed (ctxReports w)).

End WithRemote.

End ReportsContext.

(* ------------------------------------------------------------------ *)
(** * Interleaved invocations of [runSync]

    An [async] function runs without interruption from one [await] to
    the next.  [runSync] is cut at its [await]s: the entry (the test of
    [isSyncing], then the call of [NetInfo.fetch]), the continuation of
    that [await] (the test of the connection, the assignment
    [isSyncing = true], the call of [getPendingReports]), and the rest
    of the guarded block with its [finally].  The [await]s inside the
    loop are not cut further: the model has fewer interleavings than the
    code, and each of its runs is a run of the code. *)

Module Interleaving.

Inductive Invocation : Type :=
| AtEntry           (* called, nothing run yet *)
| AwaitingNetInfo   (* suspended at [await NetInfo.fetch()] *)
| InPass            (* [isSyncing = true] done, suspended in the block *)
| Returned.

Section WithRemote.

Variable remote : Remote.

(** Run invocation [inv] up to its next suspension. *)
Definition resume (inv : Invocation) (w : World) : Invocation * World :=
  match inv with
  | AtEntry =>
      if isSyncing w then (Returned, w) else (AwaitingNetInfo, w)
  | AwaitingNetInfo =>
      if negb (netIsConnected remote) then (Returned, w)
      else (InPass, setIsSyncing true w)
  | InPass =>
      (Returned,
       snd (tryFinally (SyncManager.passBody remote)
              (modify (setIsSyncing false)) w))
  | Returned => (Returned, w)
  end.

(** The pending invocations and the shared state. *)
Record System : Type := {
  invocations : list Invocation;
  world : World
}.

Fixpoint resumeNth (k : nat) (invs : list Invocation) (w : World)
  : list Invocation * World :=
  match invs, k with
  | [], _ => ([], w)
  | inv :: rest, O =>
      let (inv', w') := resume inv w in (inv' :: rest, w')
  | inv :: rest, S k' =>
      let (rest', w') := resumeNth k' rest w in (inv :: rest', w')
  end.

(** The event loop resumes invocation [k]. *)
Definition schedule (sys : System) (k : nat) : System :=
  let (invs, w) := resumeNth k (invocations sys) (world sys) in
  {| invocations := invs; world := w |}.

Definition run (order : list nat) (sys : System) : System :=
  fold_left schedule order sys.

Definition isInPass (inv : Invocation) : bool :=
  match inv with InPass => true | _ => false end.

(** The number of synchronization passes in flight. *)
Definition inFlight (sys : System) : nat :=
  length (filter isInPass (invocations sys)).

End WithRemote.

End Interleaving.

(* ------------------------------------------------------------------ *)
(** * Sample data *)

Module Sample.

Definition sighted (conf : Q) (risk : RiskLevel) : MLPrediction :=
  {| species_name := "Lantana camara"; confidence_score := conf;
     invasive_risk_level := risk; top_predictions := None |}.

Definition report (i : string) (lat lon : Q) (at_ : Z)
    (p : option MLPrediction) (status : SyncStatus) : InvasiveReport :=
  {| id := i; imageUri := ("file:///" ++ i ++ ".jpg")%string;
     audioUri := None; audioDuration := None;
     coordinates :=
       {| latitude := lat; longitude := lon; accuracy := None |};
     timestamp := at_; notes := ""; prediction := p;
     syncStatus := status; userId := "u1" |}.

Definition oneDayMs : Z := 86400000.

(** A high-risk sighting of confidence 0.80 on the meridian
    -118.24, captured one day before [now]. *)
Definition hot (now : Z) (i : string) (lat : Q) : InvasiveReport :=
  report i lat (-118.24) (now - oneDayMs)
    (Some (sighted 0.80 high)) uploaded.

(** Five such sightings within 2 km of (34.05, -118.24): the
    latitudes differ from 34.05 by at most 0.01 degree. *)
Definition fiveNear (now : Z) : list InvasiveReport :=
  [ hot now "a" 34.05; hot now "b" 34.06; hot now "c" 34.04;
    hot now "d" 34.055; hot now "e" 34.045 ].

(** The same, the fifth moved one degree north. *)
Definition fourNear (now : Z) : list InvasiveReport :=
  [ hot now "a" 34.05; hot now "b" 34.06; hot now "c" 34.04;
    hot now "d" 34.055; hot now "e" 35.045 ].

(** Six sightings on one meridian: [a] at 34.00, four at 34.03,
    [f] at 34.06.  [f] is out of the radius of [a], the four in the
    middle are within the radius of both. *)
Definition chain (now : Z) : list InvasiveReport :=
  [ hot now "a" 34.00; hot now "b" 34.03; hot now "c" 34.03;
    hot now "d" 34.03; hot now "e" 34.03; hot now "f" 34.06 ].

Definition firstFour (now : Z) : list InvasiveReport :=
  [ hot now "a" 34.05; hot now "b" 34.06; hot now "c" 34.04;
    hot now "d" 34.055 ].

Definition middleFour (now : Z) : list InvasiveReport :=
  [ hot now "b" 34.03; hot now "c" 34.03; hot now "d" 34.03;
    hot now "e" 34.03 ].

(** A report saved, synced, and saved again under the same id. *)
Definition r1 : InvasiveReport :=
  report "r1" 34.05 (-118.24) 1700000000000 None pending.

Definition saveSyncSave : list StorageService.StoreOp :=
  [ StorageService.SaveReport r1;
    StorageService.MarkReportSynced "r1";
    StorageService.SaveReport r1 ].

Definition saveSyncDelete : list StorageService.StoreOp :=
  [ StorageService.SaveReport r1;
    StorageService.UpdateReportStatus "r1" syncing;
    StorageService.MarkReportSynced "r1";
    StorageService.DeleteReport "r1";
    StorageService.SaveReport r1 ].

(** Three pending reports without prediction. *)
Definition q1 : InvasiveReport :=
  report "q1" 34.05 (-118.24) 1700000000000 None pending.
Definition q2 : InvasiveReport :=
  report "q2" 34.06 (-118.24) 1700000001000 None pending.
Definition q3 : InvasiveReport :=
  report "q3" 34.07 (-118.24) 1700000002000 None failed.

Definition threePending : World :=
  {| storage :=
       {| PENDING_REPORTS := [q1; q2; q3]; SYNCED_REPORTS := [] |};
     isSyncing := false; notified := []; uploadCalls := [];
     ctxReports := []; ctxOutbreakZones := []; isRefreshing := false |}.

(** Connected; the classifier answers; the backend rejects the upload
    of [q2] and accepts the others; no listener throws. *)
Definition secondUploadFails : Remote :=
  {| netIsConnected := true;
     predictAnswer := fun _ => Some (sighted 0.80 high);
     uploadAccepted := fun p => negb (String.eqb (p_id p) "q2");
     fetchAnswer := None;
     listenerThrows := fun _ => false |}.

(** Connected, everything succeeds, but a listener throws on every
    notification. *)
Definition listenerFails : Remote :=
  {| netIsConnected := true;
     predictAnswer := fun _ => Some (sighted 0.80 high);
     uploadAccepted := fun _ => true;
     fetchAnswer := None;
     listenerThrows := fun _ => true |}.

(** Two invocations of [runSync], both called before the first
    [NetInfo.fetch()] has resolved. *)
Definition twoCalls : Interleaving.System :=
  {| Interleaving.invocations :=
       [Interleaving.AtEntry; Interleaving.AtEntry];
     Interleaving.world := threePending |}.

(** A server copy and a local pending copy of one id, and a local
    pending report unknown to the server. *)
Definition serverCopy : InvasiveReport :=
  report "s1" 34.05 (-118.24) 1700000005000
    (Some (sighted 0.80 high)) uploaded.
Definition localCopy : InvasiveReport :=
  report "s1" 34.05 (-118.24) 1700000005000 None pending.
Definition localNew : InvasiveReport :=
  report "n1" 34.05 (-118.24) 1700000009000 None failed.

End Sample.

(* ------------------------------------------------------------------ *)
(** * utils/geo.ts, the remaining utilities *)

Module GeoUtil.

(** The quantity [a] of [haversineDistanceKm], whose square root and
    the square root of whose complement are taken. *)
Definition haversineA (lat1 lon1 lat2 lon2 : R) : R :=
  (sin (Geo.toRad (lat2 - lat1) / 2) ^ 2
   + cos (Geo.toRad lat1) * cos (Geo.toRad lat2)
     * sin (Geo.toRad (lon2 - lon1) / 2) ^ 2)%R.

(** [Math.min(Math.max(value, min), max)] *)
Definition clamp (value min max : Q) : Q := Qmin (Qmax value min) max.

(** [v.toString(16)] for the values the callback of [generateId]
    produces, which lie between 0 and 15. *)
Definition hexDigit (v : Z) : ascii :=
  match v with
  | 0%Z => "0" | 1%Z => "1" | 2%Z => "2" | 3%Z => "3"
  | 4%Z => "4" | 5%Z => "5" | 6%Z => "6" | 7%Z => "7"
  | 8%Z => "8" | 9%Z => "9" | 10%Z => "a" | 11%Z => "b"
  | 12%Z => "c" | 13%Z => "d" | 14%Z => "e" | _ => "f"
  end%char.

Definition template : string := "xxxxxxxx-xxxx-4xxx-yxxx-xxxxxxxxxxxx".

Section Random.

(** [random k] is the value of the k-th call of [Math.random()]. *)
Variable random : nat -> Q.

(** [(Math.random() * 16) | 0] at the k-th call. *)
Definition draw (k : nat) : Z := Qfloor (random k * 16).

(** [s.replace(/[xy]/g, callback)], [k] matches having been replaced
    already. *)
Fixpoint replaceXY (k : nat) (s : string) : string :=
  match s with
  | EmptyString => EmptyString
  | String c rest =>
      if Ascii.eqb c "x" || Ascii.eqb c "y" then
        let r := draw k in
        let v := if Ascii.eqb c "x" then r else Z.lor (Z.land r 3) 8 in
        String (hexDigit v) (replaceXY (S k) rest)
      else String c (replaceXY k rest)
  end.

Definition generateId : string := replaceXY 0 template.

End Random.

Definition isHexDigit (c : ascii) : bool :=
  existsb (Ascii.eqb c)
    (list_ascii_of_string "0123456789abcdef").

End GeoUtil.

(* ------------------------------------------------------------------ *)
(** * Properties of the sweep of [detectOutbreaks] *)

Module ZoneProps.

(** The set [used] holds exactly the ids of the members of the zones
    pushed so far. *)
Definition marksMembers (st : OutbreakService.Sweep) : Prop :=
  forall i,
    In i (OutbreakService.used st)
    <-> exists z, In z (OutbreakService.zones st)
                  /\ In i (map id (reports z)).

(** Each zone has a member that no zone before it has. *)
Definition eachBringsOne (zs : list OutbreakZone) : Prop :=
  forall pre z post,
    zs = pre ++ z :: post ->
    exists a, In a (reports z)
              /\ forall z', In z' pre -> ~ In (id a) (map id (reports z')).

End ZoneProps.

(* ------------------------------------------------------------------ *)
(** * services/syncManager.ts, the registry of listeners

    Listeners are functions, compared by identity by [indexOf]; they
    are taken from a type with decidable equality. *)

Module Listeners.

Section Registry.

Variable Listener : Type.
Variable same : forall a b : Listener, {a = b} + {a <> b}.

(** [listeners.push(listener)] *)
Definition push (listeners : list Listener) (listener : Listener)
  : list Listener :=
  listeners ++ [listener].

(** [idx = listeners.indexOf(listener);
     if (idx !== -1) listeners.splice(idx, 1)] *)
Fixpoint unsubscribe (listeners : list Listener) (listener : Listener)
  : list Listener :=
  match listeners with
  | [] => []
  | l :: rest =>
      if same l listener then rest else l :: unsubscribe rest listener
  end.

(** [onReportSyncUpdate(listener)]: the registry after the call and
    the returned function, which acts on the registry of its time. *)
Definition onReportSyncUpdate (listeners : list Listener)
    (listener : Listener)
  : list Listener * (list Listener -> list Listener) :=
  (push listeners listener, fun current => unsubscribe current listener).

End Registry.

End Listeners.

(* ------------------------------------------------------------------ *)
(** * services/apiService.ts, the rows of [GET /reports] *)

Module ApiService.

Definition API_BASE_URL : string := "http://10.164.17.110:8000".

Record ServerRow : Type := {
  row_id : string;
  image_path : option string;
  audio_path : option string;
  row_latitude : Q;
  row_longitude : Q;
  row_timestamp : Z;
  row_notes : option string;
  row_prediction : option MLPrediction;
  row_userId : string
}.

(** [path ? `${API_BASE_URL}${path}` : other]: an absent and an empty
    path are both falsy. *)
Definition withBase {A : Type} (path : option string)
    (found : string -> A) (other : A) : A :=
  match path with
  | None | Some EmptyString => other
  | Some p => found (API_BASE_URL ++ p)%string
  end.

(** The callback of [data.map] in [fetchAllReports]. *)
Definition toReport (r : ServerRow) : InvasiveReport :=
  {| id := row_id r;
     imageUri := withBase (image_path r) (fun u => u) EmptyString;
     audioUri := withBase (audio_path r) Some None;
     audioDuration := None;
     coordinates :=
       {| latitude := row_latitude r; longitude := row_longitude r;
          accuracy := None |};
     timestamp := row_timestamp r;
     notes := match row_notes r with Some n => n | None => EmptyString end;
     prediction := row_prediction r;
     syncStatus := uploaded;
     userId := row_userId r |}.

(** The answers of [fetchAllReports]: a rejection, or the mapped rows
    of the response. *)
Definition fetched (response : option (list ServerRow))
  : option (list InvasiveReport) :=
  option_map (map toReport) response.

End ApiService.

(* ------------------------------------------------------------------ *)
(** * The outcome of [refresh], in closed form *)

Module RefreshOutcome.

(** The server set as [refresh] sees it: empty when the fetch
    fails. *)
Definition serverSet (remote : Remote) : list InvasiveReport :=
  match fetchAnswer remote with Some l => l | None => [] end.

(** The world after [refresh]; [ContextMore.refresh_result] relates it
    to the monadic code. *)
Definition refreshed (remote : Remote) (now : Z)
    (generateId : nat -> string) (w : World) : World :=
  let all :=
    ReportsContext.mergedView (StorageService.getAllReports (storage w))
      (serverSet remote) in
  setIsRefreshing false
    (setOutbreakZones (OutbreakService.detectOutbreaks now generateId all)
       (setReports all (setIsRefreshing true w))).

End RefreshOutcome.

(* ------------------------------------------------------------------ *)
(** * More sample data *)

Module Sample2.

(** The chain of [Sample.chain], one of the middle sightings first. *)
Definition chainFromMiddle (now : Z) : list InvasiveReport :=
  [ Sample.hot now "b" 34.03; Sample.hot now "a" 34.00;
    Sample.hot now "c" 34.03; Sample.hot now "d" 34.03;
    Sample.hot now "e" 34.03; Sample.hot now "f" 34.06 ].

(** A pending bucket holding a record left in [syncing]. *)
Definition stuck : InvasiveReport :=
  Sample.report "k1" 34.05 (-118.24) 1700000003000 None syncing.

Definition withStuck : World :=
  {| storage :=
       {| PENDING_REPORTS := [Sample.q1; stuck; Sample.q3];
          SYNCED_REPORTS := [] |};
     isSyncing := false; notified := []; uploadCalls := [];
     ctxReports := []; ctxOutbreakZones := []; isRefreshing := false |}.

(** Connected, everything succeeds, no listener throws. *)
Definition allGood : Remote :=
  {| netIsConnected := true;
     predictAnswer := fun _ => Some (Sample.sighted 0.80 high);
     uploadAccepted := fun _ => true;
     fetchAnswer := Some [];
     listenerThrows := fun _ => false |}.

Definition row1 : ApiService.ServerRow :=
  {| ApiService.row_id := "s1";
     ApiService.image_path := Some "/uploads/s1.jpg"%string;
     ApiService.audio_path := None;
     ApiService.row_latitude := 34.05;
     ApiService.row_longitude := -118.24;
     ApiService.row_timestamp := 1700000005000;
     ApiService.row_notes := None;
     ApiService.row_prediction := Some (Sample.sighted 0.80 high);
     ApiService.row_userId := "u2" |}.

(** The server lists [s1]; the fetch is mapped from its rows. *)
Definition serverHasS1 : Remote :=
  {| netIsConnected := true;
     predictAnswer := fun _ => None;
     uploadAccepted := fun _ => true;
     fetchAnswer := ApiService.fetched (Some [row1]);
     listenerThrows := fun _ => false |}.

Definition localS1andN1 : World :=
  {| storage :=
       {| PENDING_REPORTS := [Sample.localCopy; Sample.localNew];
          SYNCED_REPORTS := [] |};
     isSyncing := false; notified := []; uploadCalls := [];
     ctxReports := []; ctxOutbreakZones := []; isRefreshing := false |}.

End Sample2.

(* ------------------------------------------------------------------ *)
(** * Facts on lists of identifiers *)

Lemma RiskLevel_eqb_eq (a b : RiskLevel) : RiskLevel_eqb a b = true <-> a = b.
Proof. destruct a, b; simpl; split; congruence. Qed.

Lemma SyncStatus_eqb_eq (a b : SyncStatus) :
  SyncStatus_eqb a b = true <-> a = b.
Proof. destruct a, b; simpl; split; congruence. Qed.

Lemma pendingOrFailed_iff (r : InvasiveReport) :
  pendingOrFailed r = true <-> syncStatus r = pending \/ syncStatus r = failed.
Proof.
  unfold pendingOrFailed. rewrite orb_true_iff, !SyncStatus_eqb_eq. tauto.
Qed.

Lemma id_withSyncStatus (r : InvasiveReport) (st : SyncStatus) :
  id (withSyncStatus r st) = id r.
Proof. reflexivity. Qed.

Lemma ids_drop (i : string) (l : list InvasiveReport) :
  map id (filter (fun r => negb (String.eqb (id r) i)) l)
  = filter (fun j => negb (String.eqb j i)) (map id l).
Proof.
  induction l as [|r l IH]; simpl; [reflexivity|].
  destruct (String.eqb (id r) i); simpl; now rewrite IH.
Qed.

Lemma in_drop (i j : string) (l : list string) :
  In j (filter (fun k => negb (String.eqb k i)) l) <-> In j l /\ j <> i.
Proof.
  rewrite filter_In, negb_true_iff. split; intros [H1 H2]; split; trivial.
  - intros ->. now rewrite String.eqb_refl in H2.
  - now apply String.eqb_neq.
Qed.

Lemma ids_restatus (i : string) (st : SyncStatus) (l : list InvasiveReport) :
  map id (map (fun r => if String.eqb (id r) i
                        then withSyncStatus r st else r) l)
  = map id l.
Proof.
  induction l as [|r l IH]; simpl; [reflexivity|].
  rewrite IH. now destruct (String.eqb (id r) i).
Qed.

Lemma inBucket_In (i : string) (bucket : list InvasiveReport) :
  StorageService.inBucket i bucket = true <-> In i (map id bucket).
Proof.
  unfold StorageService.inBucket. rewrite existsb_exists, in_map_iff.
  split; intros [r [H1 H2]]; exists r.
  - apply String.eqb_eq in H2. tauto.
  - split; [tauto|]. apply String.eqb_eq. tauto.
Qed.

(* ------------------------------------------------------------------ *)
(** * The record store *)

Module StoreFacts.

Import StorageService.

Lemma saveReport_keeps (report : InvasiveReport) (s : Storage) :
  NoDup (storedIds s) ->
  ~ In (id report) (map id (SYNCED_REPORTS s)) ->
  NoDup (storedIds (saveReport report s)).
Proof.
  unfold storedIds, saveReport, getPendingReports; simpl.
  intros Hnd Hfresh.
  rewrite map_app, ids_drop; simpl.
  pose proof (NoDup_app_remove_r _ _ Hnd) as Hp.
  pose proof (NoDup_app_remove_l _ _ Hnd) as Hs.
  rewrite <- app_assoc; simpl.
  apply NoDup_app.
  - now apply NoDup_filter.
  - constructor; assumption.
  - intros j Hj [<-|Hin].
    + apply in_drop in Hj. now destruct Hj.
    + apply in_drop in Hj. destruct Hj as [Hj _].
      revert Hin. clear - Hnd Hj.
      induction (map id (PENDING_REPORTS s)) as [|k l IH];
        simpl in *; [contradiction|].
      inversion Hnd as [|? ? Hk Hl]; subst.
      destruct Hj as [->|Hj].
      * intros Hin. apply Hk. apply in_or_app. now right.
      * now apply IH.
Qed.

Lemma updateReportStatus_ids (i : string) (st : SyncStatus) (s : Storage) :
  storedIds (updateReportStatus i st s) = storedIds s.
Proof.
  unfold storedIds, updateReportStatus, getPendingReports; simpl.
  now rewrite ids_restatus.
Qed.

Lemma NoDup_app_disjoint (l1 l2 : list string) (j : string) :
  NoDup (l1 ++ l2) -> In j l1 -> ~ In j l2.
Proof.
  induction l1 as [|k l1 IH]; simpl; [contradiction|].
  intros Hnd [->|Hj] Hin; inversion Hnd as [|? ? Hk Hl]; subst.
  - apply Hk. apply in_or_app. now right.
  - now apply (IH Hl Hj).
Qed.

Lemma markReportSynced_keeps (i : string) (s : Storage) :
  NoDup (storedIds s) -> NoDup (storedIds (markReportSynced i s)).
Proof.
  unfold markReportSynced, getPendingReports, getSyncedReports.
  intros Hnd.
  destruct (find (fun r => String.eqb (id r) i) (PENDING_REPORTS s))
    as [target|] eqn:Hfind; [|assumption].
  apply find_some in Hfind. destruct Hfind as [Hin Heq].
  apply String.eqb_eq in Heq.
  unfold storedIds in *; simpl.
  rewrite ids_drop, map_app; simpl. rewrite Heq.
  pose proof (NoDup_app_remove_r _ _ Hnd) as Hp.
  pose proof (NoDup_app_remove_l _ _ Hnd) as Hs.
  assert (Hi : In i (map id (PENDING_REPORTS s))).
  { rewrite <- Heq. now apply in_map. }
  pose proof (NoDup_app_disjoint _ _ _ Hnd Hi) as Hout.
  apply NoDup_app.
  - now apply NoDup_filter.
  - apply NoDup_app; trivial.
    + constructor; [intros []|constructor].
    + intros j Hj [<-|[]]. contradiction.
  - intros j Hj Hin'. apply in_drop in Hj. destruct Hj as [Hj Hne].
    apply in_app_or in Hin'. destruct Hin' as [Hin'|[<-|[]]].
    + exact (NoDup_app_disjoint _ _ _ Hnd Hj Hin').
    + now apply Hne.
Qed.

Lemma deleteReport_keeps (i : string) (s : Storage) :
  NoDup (storedIds s) -> NoDup (storedIds (deleteReport i s)).
Proof.
  unfold storedIds, deleteReport, getPendingReports, getSyncedReports;
    simpl.
  intros Hnd. rewrite !ids_drop, <- filter_app. now apply NoDup_filter.
Qed.

Lemma runOps_keeps (ops : list StoreOp) :
  forall s, NoDup (storedIds s) ->
            savesAvoidSynced ops s = true ->
            NoDup (storedIds (runOps ops s)).
Proof.
  induction ops as [|op ops IH]; intros s Hnd Hok; simpl in *;
    [assumption|].
  apply andb_true_iff in Hok. destruct Hok as [Hop Hrest].
  apply IH; [|assumption].
  destruct op as [report|i st|i|i]; simpl.
  - apply saveReport_keeps; [assumption|].
    apply negb_true_iff in Hop. rewrite <- inBucket_In. congruence.
  - now rewrite updateReportStatus_ids.
  - now apply markReportSynced_keeps.
  - now apply deleteReport_keeps.
Qed.

End StoreFacts.

(** C3, as amended.  Starting from empty buckets, after any sequence of
    [saveReport], [updateReportStatus], [markReportSynced] and
    [deleteReport] in which no [saveReport] is given an id that the
    synced bucket holds at that moment, the ids of the pending bucket
    followed by those of the synced bucket have no repetition: every
    stored id is in exactly one bucket, once. *)
Theorem bucket_exclusivity_fresh_saves (ops : list StorageService.StoreOp) :
  StorageService.savesAvoidSynced ops StorageService.emptyStorage = true ->
  NoDup (StorageService.storedIds
           (StorageService.runOps ops StorageService.emptyStorage)).
Proof.
  intros Hok. apply StoreFacts.runOps_keeps; [constructor|assumption].
Qed.

Lemma bucket_exclusivity_fresh_saves_witness :
  StorageService.savesAvoidSynced Sample.saveSyncDelete
    StorageService.emptyStorage = true
  /\ NoDup (StorageService.storedIds
              (StorageService.runOps Sample.saveSyncDelete
                 StorageService.emptyStorage)).
Proof.
  split; [reflexivity|].
  apply (bucket_exclusivity_fresh_saves Sample.saveSyncDelete). reflexivity.
Defined.

(** C3, the claim as stated fails: [saveReport] filters the pending
    bucket only, so saving an id again after [markReportSynced] leaves
    it in both buckets. *)
Lemma bucket_exclusivity_counterexample :
  let s := StorageService.runOps Sample.saveSyncSave
             StorageService.emptyStorage in
  map id (PENDING_REPORTS s) = ["r1"%string]
  /\ map id (SYNCED_REPORTS s) = ["r1"%string]
  /\ ~ NoDup (StorageService.storedIds s).
Proof.
  simpl. repeat split.
  intros H. inversion H as [|? ? Hin _]; subst. apply Hin. now left.
Qed.

(* ------------------------------------------------------------------ *)
(** * The time window and the candidate filter *)

Module WindowFacts.

Import OUTBREAK_CONFIG.

Lemma windowMs_days (days : Q) :
  (days * 24 * 60 * 60 * 1000 == days * 86400000)%Q.
Proof. ring. Qed.

Lemma isWithinDays_iff (now date : Z) (days : Q) :
  Geo.isWithinDays now date days = true
  <-> (inject_Z (now - date) <= days * 86400000)%Q.
Proof.
  unfold Geo.isWithinDays. rewrite Qle_bool_iff.
  now rewrite windowMs_days.
Qed.

(** With the configured window of 7 days the test is one on
    integers. *)
Lemma isWithinDays_week (now date : Z) :
  Geo.isWithinDays now date TIME_WINDOW_DAYS = true
  <-> (now - date <= 7 * 86400000)%Z.
Proof.
  rewrite isWithinDays_iff. unfold TIME_WINDOW_DAYS.
  rewrite (Zle_Qle (now - date) (7 * 86400000)).
  assert (E : (7 * 86400000 == inject_Z (7 * 86400000))%Q)
    by reflexivity.
  now rewrite E.
Qed.

Lemma isHighRisk_iff (r : InvasiveReport) :
  OutbreakService.isHighRisk r = true
  <-> exists p, prediction r = Some p
                /\ invasive_risk_level p = high
                /\ (MIN_CONFIDENCE <= confidence_score p)%Q.
Proof.
  unfold OutbreakService.isHighRisk.
  destruct (prediction r) as [p|].
  - rewrite andb_true_iff, RiskLevel_eqb_eq, Qle_bool_iff. split.
    + intros [H1 H2]. now exists p.
    + intros [p' [E [H1 H2]]]. injection E as <-. now split.
  - split; [discriminate|]. intros [p [E _]]. discriminate.
Qed.

Lemma candidatesOf_In (now : Z) (reports0 : list InvasiveReport)
    (r : InvasiveReport) :
  In r (OutbreakService.candidatesOf now reports0)
  <-> In r reports0
      /\ OutbreakService.isHighRisk r = true
      /\ Geo.isWithinDays now (timestamp r) TIME_WINDOW_DAYS = true.
Proof.
  unfold OutbreakService.candidatesOf.
  rewrite filter_In, andb_true_iff. tauto.
Qed.

Lemma future_within (now date : Z) (days : Q) :
  (now < date)%Z -> (0 <= days)%Q ->
  Geo.isWithinDays now date days = true.
Proof.
  intros Hfuture Hdays. apply isWithinDays_iff.
  apply Qle_trans with (y := 0%Q).
  - assert (H : (now - date <= 0)%Z) by lia.
    now rewrite Zle_Qle in H.
  - apply Qmult_le_0_compat; [assumption|discriminate].
Qed.

End WindowFacts.

(** C5.  A record is a candidate of [detectOutbreaks] exactly when it
    is in the input, has a prediction of risk level high and of
    confidence at least MIN_CONFIDENCE, and [now - capturedAt] is at
    most TIME_WINDOW_DAYS * 86,400,000 ms.  The bound is inclusive: a
    qualifying record captured exactly 7 * 24 h before [now] is a
    candidate, and a record captured one millisecond earlier is not. *)
Theorem candidate_filter_closed_window
    (now : Z) (reports0 : list InvasiveReport) (r : InvasiveReport) :
  (In r (OutbreakService.candidatesOf now reports0)
   <-> In r reports0
       /\ (exists p, prediction r = Some p
                     /\ invasive_risk_level p = high
                     /\ (OUTBREAK_CONFIG.MIN_CONFIDENCE
                         <= confidence_score p)%Q)
       /\ (inject_Z (now - timestamp r)
           <= OUTBREAK_CONFIG.TIME_WINDOW_DAYS * 86400000)%Q)
  /\ (In r reports0 -> OutbreakService.isHighRisk r = true ->
      timestamp r = (now - 7 * 86400000)%Z ->
      In r (OutbreakService.candidatesOf now reports0))
  /\ (timestamp r = (now - 7 * 86400000 - 1)%Z ->
      ~ In r (OutbreakService.candidatesOf now reports0)).
Proof.
  split; [|split].
  - rewrite WindowFacts.candidatesOf_In, WindowFacts.isHighRisk_iff,
      WindowFacts.isWithinDays_iff. tauto.
  - intros Hin Hrisk Hat. apply WindowFacts.candidatesOf_In.
    repeat split; trivial.
    apply WindowFacts.isWithinDays_week. lia.
  - intros Hat Hin. apply WindowFacts.candidatesOf_In in Hin.
    destruct Hin as [_ [_ Hwin]].
    apply WindowFacts.isWithinDays_week in Hwin. lia.
Qed.

Lemma candidate_filter_closed_window_witness :
  let now := 1700000000000%Z in
  let onEdge :=
    Sample.report "edge" 34.05 (-118.24) (now - 7 * 86400000)
      (Some (Sample.sighted 0.80 high)) uploaded in
  let late :=
    Sample.report "late" 34.05 (-118.24) (now - 7 * 86400000 - 1)
      (Some (Sample.sighted 0.80 high)) uploaded in
  In onEdge (OutbreakService.candidatesOf now [onEdge; late])
  /\ ~ In late (OutbreakService.candidatesOf now [onEdge; late]).
Proof.
  intros now onEdge late. split.
  - apply (candidate_filter_closed_window now [onEdge; late] onEdge).
    + simpl. now left.
    + reflexivity.
    + reflexivity.
  - apply (candidate_filter_closed_window now [onEdge; late] late).
    reflexivity.
Defined.

(** C10.  When a record's timestamp lies after [now], [isWithinDays]
    answers true for every non-negative number of days, the difference
    [now - capturedAt] being negative; such a record, when high-risk,
    always passes the time-window filter of [detectOutbreaks]. *)
Theorem future_dated_always_within_window
    (now : Z) (r : InvasiveReport) (days : Q)
    (reports0 : list InvasiveReport) :
  (now < timestamp r)%Z ->
  (0 <= days)%Q ->
  Geo.isWithinDays now (timestamp r) days = true
  /\ (In r reports0 -> OutbreakService.isHighRisk r = true ->
      In r (OutbreakService.candidatesOf now reports0)).
Proof.
  intros Hfuture Hdays. split.
  - now apply WindowFacts.future_within.
  - intros Hin Hrisk. apply WindowFacts.candidatesOf_In.
    repeat split; trivial.
    apply WindowFacts.future_within; [assumption|discriminate].
Qed.

Lemma future_dated_always_within_window_witness :
  let now := 1700000000000%Z in
  let ahead :=
    Sample.report "ahead" 34.05 (-118.24) (now + 400 * 86400000)
      (Some (Sample.sighted 0.80 high)) uploaded in
  Geo.isWithinDays now (timestamp ahead) 0 = true
  /\ In ahead (OutbreakService.candidatesOf now [ahead]).
Proof.
  intros now ahead.
  destruct (future_dated_always_within_window now ahead 0 [ahead])
    as [Hwin Hcand].
  - reflexivity.
  - discriminate.
  - split; [exact Hwin|]. apply Hcand; [now left|reflexivity].
Defined.

(* ------------------------------------------------------------------ *)
(** * The haversine distance along a meridian *)

Module GeoFacts.

Local Open Scope R_scope.

Lemma PI_bounds : 3 < PI <= 4.
Proof. split; [pose proof PI2_3_2; lra | exact PI_4]. Qed.

(** For a non-negative half angle below a right angle,
    [2 * atan2 (sqrt (sin² g)) (sqrt (1 - sin² g))] is [2 * g]. *)
Lemma central_angle (g : R) :
  0 <= g < PI / 2 ->
  Geo.atan2 (sqrt (sin g ^ 2)) (sqrt (1 - sin g ^ 2)) = g.
Proof.
  intros [Hlo Hhi].
  assert (Hcos : 0 < cos g) by (apply cos_gt_0; lra).
  assert (Hsin : 0 <= sin g) by (apply sin_ge_0; lra).
  assert (E1 : sqrt (sin g ^ 2) = sin g).
  { rewrite <- Rsqr_pow2. now apply sqrt_Rsqr. }
  assert (E2 : sqrt (1 - sin g ^ 2) = cos g).
  { rewrite <- Rsqr_pow2, <- cos2. apply sqrt_Rsqr. lra. }
  rewrite E1, E2. unfold Geo.atan2.
  destruct (Rlt_dec 0 (cos g)) as [_|Hn]; [|contradiction].
  change (sin g / cos g) with (tan g).
  apply atan_tan. lra.
Qed.

Lemma sin_sq_abs (h : R) : sin h ^ 2 = sin (Rabs h) ^ 2.
Proof.
  destruct (Rcase_abs h) as [Hneg|Hpos].
  - rewrite (Rabs_left _ Hneg), sin_neg. ring.
  - now rewrite (Rabs_right _ Hpos).
Qed.

(** Two points of one meridian less than 180 degrees apart are at
    6371 km times their difference of latitude in radians. *)
Lemma haversine_meridian (lat1 lat2 lon : R) :
  Rabs (lat2 - lat1) < 180 ->
  Geo.haversineDistanceKm lat1 lon lat2 lon
  = 6371 * (Rabs (lat2 - lat1) * PI / 180).
Proof.
  intros Hclose. unfold Geo.haversineDistanceKm, Geo.toRad.
  replace ((lon - lon) * PI / 180 / 2) with 0 by lra.
  rewrite sin_0.
  replace (sin ((lat2 - lat1) * PI / 180 / 2) ^ 2
           + cos (lat1 * PI / 180) * cos (lat2 * PI / 180) * 0 ^ 2)
    with (sin ((lat2 - lat1) * PI / 180 / 2) ^ 2) by ring.
  rewrite sin_sq_abs. set (g := Rabs ((lat2 - lat1) * PI / 180 / 2)).
  assert (Eg : g = Rabs (lat2 - lat1) * PI / 360).
  { unfold g.
    replace ((lat2 - lat1) * PI / 180 / 2)
      with ((lat2 - lat1) * (PI / 360)) by lra.
    rewrite Rabs_mult, (Rabs_right (PI / 360)); [lra|].
    pose proof PI_bounds. lra. }
  rewrite central_angle.
  - rewrite Eg. lra.
  - rewrite Eg. pose proof PI_bounds. pose proof (Rabs_pos (lat2 - lat1)).
    split; nra.
Qed.

(** Within five kilometres: up to 0.035 degree of latitude. *)
Lemma meridian_near (lat1 lat2 lon : R) :
  Rabs (lat2 - lat1) <= 35 / 1000 ->
  Geo.haversineDistanceKm lat1 lon lat2 lon <= 5.
Proof.
  intros H. rewrite haversine_meridian by lra.
  pose proof PI_bounds. pose proof (Rabs_pos (lat2 - lat1)). nra.
Qed.

(** Beyond five kilometres: from 0.05 degree of latitude on. *)
Lemma meridian_far (lat1 lat2 lon : R) :
  5 / 100 <= Rabs (lat2 - lat1) < 180 ->
  ~ Geo.haversineDistanceKm lat1 lon lat2 lon <= 5.
Proof.
  intros [H1 H2]. rewrite haversine_meridian by lra.
  pose proof PI_bounds. nra.
Qed.

Lemma haversine_same_point (lat lon : R) :
  Geo.haversineDistanceKm lat lon lat lon = 0.
Proof.
  rewrite haversine_meridian.
  - replace (lat - lat) with 0 by lra. rewrite Rabs_R0. lra.
  - replace (lat - lat) with 0 by lra. rewrite Rabs_R0. lra.
Qed.

End GeoFacts.

(* ------------------------------------------------------------------ *)
(** * The outbreak detector *)

Module DetectorFacts.

Import OUTBREAK_CONFIG OutbreakService.

(** ** The centroid *)



(** ** The sweep *)

Section Sweep.

Variable now : Z.
Variable generateId : nat -> string.
Variable candidates : list InvasiveReport.

Local Abbreviation visit := (visit now generateId candidates).
Local Abbreviation sweep := (sweep now generateId candidates).
Local Abbreviation zoneOf := (zoneOf now generateId).

Lemma sweep_cons (st : Sweep) (a : InvasiveReport)
    (rest : list InvasiveReport) :
  sweep st (a :: rest) = sweep (visit st a) rest.
Proof. reflexivity. Qed.


Lemma visit_claimed (st : Sweep) (a : InvasiveReport) :
  has (used st) (id a) = true -> visit st a = st.
Proof. unfold OutbreakService.visit. now intros ->. Qed.

Lemma visit_emits (st : Sweep) (a : InvasiveReport)
    (cluster : list InvasiveReport) :
  has (used st) (id a) = false ->
  clusterOf candidates a = cluster ->
  (MIN_REPORTS <= length cluster)%nat ->
  visit st a
  = {| zones := zones st ++ [zoneOf (length (zones st)) cluster];
       used := addAll (used st) cluster |}.
Proof.
  unfold OutbreakService.visit. intros -> -> Hsize.
  apply Nat.leb_le in Hsize. now rewrite Hsize.
Qed.

Lemma visit_small (st : Sweep) (a : InvasiveReport)
    (cluster : list InvasiveReport) :
  clusterOf candidates a = cluster ->
  (length cluster < MIN_REPORTS)%nat ->
  visit st a = st.
Proof.
  unfold OutbreakService.visit. intros -> Hsize.
  apply Nat.leb_gt in Hsize. rewrite Hsize.
  now destruct (has (used st) (id a)).
Qed.




(** Every member of a cluster is marked. *)
Lemma addAll_In (l : list InvasiveReport) :
  forall (u : set string) (i : string),
    In i (addAll u l) <-> In i u \/ In i (map id l).
Proof.
  induction l as [|r l IH]; intros u i; simpl.
  - tauto.
  - unfold addAll in *. simpl. rewrite IH, set_add_iff.
    split; intros H; intuition auto.
Qed.

Lemma has_addAll (u : set string) (l : list InvasiveReport)
    (r : InvasiveReport) :
  In r l -> has (addAll u l) (id r) = true.
Proof.
  intros Hr. apply set_mem_correct2. apply addAll_In. right.
  now apply in_map.
Qed.

Lemma sweep_all_claimed (l : list InvasiveReport) (st : Sweep) :
  (forall r, In r l -> has (used st) (id r) = true) ->
  sweep st l = st.
Proof.
  induction l as [|a l IH]; intros H; [reflexivity|].
  rewrite sweep_cons, visit_claimed by (apply H; now left).
  apply IH. intros r Hr. apply H. now right.
Qed.

Lemma sweep_all_small (l : list InvasiveReport) (st : Sweep) :
  (forall a, In a l ->
             (length (clusterOf candidates a) < MIN_REPORTS)%nat) ->
  sweep st l = st.
Proof.
  induction l as [|a l IH]; intros H; [reflexivity|].
  rewrite sweep_cons, (visit_small st a _ eq_refl) by (apply H; now left).
  apply IH. intros r Hr. apply H. now right.
Qed.

End Sweep.

(** When the first candidate has every candidate within its radius and
    they are enough, the result is the one zone of all candidates. *)
Lemma one_zone_of_all (now : Z) (generateId : nat -> string)
    (reports0 : list InvasiveReport) :
  let candidates := candidatesOf now reports0 in
  (MIN_REPORTS <= length candidates)%nat ->
  (forall r, In r candidates -> withinRadius (hd r candidates) r = true) ->
  detectOutbreaks now generateId reports0
  = [zoneOf now generateId 0 candidates].
Proof.
  intros candidates Hsize Hnear. unfold detectOutbreaks. fold candidates.
  destruct candidates as [|a rest] eqn:E.
  - simpl in Hsize. unfold MIN_REPORTS in Hsize. lia.
  - rewrite <- E in *.
    assert (Hcl : clusterOf candidates a = candidates).
    { unfold clusterOf. apply forallb_filter_id. apply forallb_forall.
      intros r Hr. specialize (Hnear r Hr). now rewrite E in Hnear. }
    rewrite E at 2. rewrite sweep_cons.
    rewrite (visit_emits now generateId candidates startSweep a candidates)
      by (trivial; reflexivity).
    rewrite sweep_all_claimed; [reflexivity|].
    intros r Hr. simpl used. apply has_addAll. rewrite E. now right.
Qed.

(** When no candidate has enough candidates within its radius, there
    is no zone. *)
Lemma no_zone_when_sparse (now : Z) (generateId : nat -> string)
    (reports0 : list InvasiveReport) :
  let candidates := candidatesOf now reports0 in
  (forall a, In a candidates ->
             (length (clusterOf candidates a) < MIN_REPORTS)%nat) ->
  detectOutbreaks now generateId reports0 = [].
Proof.
  intros candidates Hsparse. unfold detectOutbreaks. fold candidates.
  now rewrite sweep_all_small.
Qed.

End DetectorFacts.

(* ------------------------------------------------------------------ *)
(** * The detector on the sample sightings *)

Module DetectorRuns.

Import OUTBREAK_CONFIG OutbreakService.

Lemma hot_qualifies (now : Z) (i : string) (lat : Q) :
  isHighRisk (Sample.hot now i lat)
  && Geo.isWithinDays now (timestamp (Sample.hot now i lat))
       TIME_WINDOW_DAYS = true.
Proof.
  apply andb_true_iff. split; [reflexivity|].
  apply WindowFacts.isWithinDays_week. simpl. unfold Sample.oneDayMs. lia.
Qed.

Lemma hot_near (now : Z) (i j : string) (la lb : Q) :
  (Rabs (Q2R lb - Q2R la) <= 35 / 1000)%R ->
  withinRadius (Sample.hot now i la) (Sample.hot now j lb) = true.
Proof.
  intros H. unfold withinRadius; simpl.
  destruct (Rle_dec _ _) as [_|Hn]; [reflexivity|].
  exfalso. apply Hn.
  replace (Q2R RADIUS_KM) with 5%R by (unfold Q2R; simpl; lra).
  now apply GeoFacts.meridian_near.
Qed.

Lemma hot_far (now : Z) (i j : string) (la lb : Q) :
  (5 / 100 <= Rabs (Q2R lb - Q2R la) < 180)%R ->
  withinRadius (Sample.hot now i la) (Sample.hot now j lb) = false.
Proof.
  intros H. unfold withinRadius; simpl.
  destruct (Rle_dec _ _) as [Hle|_]; [|reflexivity].
  exfalso. revert Hle.
  replace (Q2R RADIUS_KM) with 5%R by (unfold Q2R; simpl; lra).
  now apply GeoFacts.meridian_far.
Qed.

(** Decide [withinRadius] between two sample sightings from the
    difference of their latitudes. *)
Ltac latitudes :=
  unfold Q2R; simpl; unfold Rabs;
  match goal with
  | |- context [Rcase_abs ?x] => destruct (Rcase_abs x); lra
  end.

Ltac within :=
  repeat first
    [ rewrite hot_near by latitudes
    | rewrite hot_far by latitudes ].

Ltac cluster :=
  unfold clusterOf, Sample.fiveNear, Sample.fourNear, Sample.chain,
    Sample.firstFour, Sample.middleFour;
  cbn [filter]; within; reflexivity.

Section Runs.

Variable now : Z.
Variable generateId : nat -> string.

Local Abbreviation hot := (Sample.hot now).

Lemma candidates_hot (l : list InvasiveReport) :
  Forall (fun r => exists i lat, r = hot i lat) l ->
  candidatesOf now l = l.
Proof.
  induction 1 as [|r l [i [lat ->]] _ IH]; [reflexivity|].
  unfold candidatesOf in *. cbn [filter].
  now rewrite hot_qualifies, IH.
Qed.

Ltac all_hot := repeat (constructor; [do 2 eexists; reflexivity|]);
                constructor.

Lemma candidates_fiveNear :
  candidatesOf now (Sample.fiveNear now) = Sample.fiveNear now.
Proof. apply candidates_hot. all_hot. Qed.


Lemma candidates_chain :
  candidatesOf now (Sample.chain now) = Sample.chain now.
Proof. apply candidates_hot. all_hot. Qed.

(** *** Five sightings close together *)

Lemma fiveNear_cluster_a :
  clusterOf (Sample.fiveNear now) (hot "a" 34.05) = Sample.fiveNear now.
Proof. cluster. Qed.

(** *** Four close together and one far away *)

Local Abbreviation firstFour := (Sample.firstFour now).
Local Abbreviation middleFour := (Sample.middleFour now).






(** *** A chain of six *)

Lemma chain_cluster_a :
  clusterOf (Sample.chain now) (hot "a" 34.00)
  = hot "a" 34.00 :: middleFour.
Proof. cluster. Qed.

Lemma chain_cluster_f :
  clusterOf (Sample.chain now) (hot "f" 34.06)
  = middleFour ++ [hot "f" 34.06].
Proof. cluster. Qed.

(** *** The sweeps *)

Local Abbreviation zoneOf := (zoneOf now generateId).
Local Abbreviation detectOutbreaks := (detectOutbreaks now generateId).

Ltac claimed :=
  rewrite DetectorFacts.sweep_cons,
    DetectorFacts.visit_claimed by reflexivity.

Ltac emits E :=
  rewrite DetectorFacts.sweep_cons;
  erewrite DetectorFacts.visit_emits;
  [ | reflexivity | exact E | simpl; unfold MIN_REPORTS; lia ].


Lemma detect_fiveNear :
  detectOutbreaks (Sample.fiveNear now) = [zoneOf 0 (Sample.fiveNear now)].
Proof.
  unfold OutbreakService.detectOutbreaks. rewrite candidates_fiveNear.
  unfold Sample.fiveNear at 2.
  emits fiveNear_cluster_a. do 4 claimed. reflexivity.
Qed.


Lemma detect_chain :
  detectOutbreaks (Sample.chain now)
  = [ zoneOf 0 (hot "a" 34.00 :: middleFour);
      zoneOf 1 (middleFour ++ [hot "f" 34.06]) ].
Proof.
  unfold OutbreakService.detectOutbreaks. rewrite candidates_chain.
  unfold Sample.chain at 2.
  emits chain_cluster_a. do 4 claimed.
  emits chain_cluster_f. reflexivity.
Qed.


End Runs.

End DetectorRuns.



(** C2, the code on six sightings of one meridian: [a] at 34.00, four
    at 34.03 and [f] at 34.06.  The sweep returns two zones; the four
    sightings in the middle, marked visited after the first zone, are
    members of the second zone as well, the cluster of the anchor [f]
    being filtered from all candidates. *)
Theorem chain_zones_share_members (now : Z) (generateId : nat -> string) :
  exists z1 z2,
    OutbreakService.detectOutbreaks now generateId (Sample.chain now)
    = [z1; z2]
    /\ map id (reports z1) = ["a"; "b"; "c"; "d"; "e"]%string
    /\ map id (reports z2) = ["b"; "c"; "d"; "e"; "f"]%string
    /\ Forall
         (fun i => OutbreakService.has
                     (OutbreakService.addAll [] (reports z1)) i = true)
         (map id (reports z1)).
Proof.
  do 2 eexists. split; [apply DetectorRuns.detect_chain|].
  repeat split. repeat constructor.
Qed.

(* ------------------------------------------------------------------ *)
(** * The sort by timestamp *)

Module SortFacts.

Lemma insert_perm (x : InvasiveReport) (l : list InvasiveReport) :
  Permutation (insertByTimestamp x l) (x :: l).
Proof.
  induction l as [|y l IH]; simpl; [reflexivity|].
  destruct (timestamp x <? timestamp y)%Z; [|reflexivity].
  rewrite IH. apply perm_swap.
Qed.

Lemma sort_perm (l : list InvasiveReport) :
  Permutation (sortByTimestampDesc l) l.
Proof.
  induction l as [|x l IH]; simpl; [reflexivity|].
  rewrite insert_perm. now constructor.
Qed.

Lemma insert_sorted (x : InvasiveReport) (l : list InvasiveReport) :
  StronglySorted notOlder l ->
  StronglySorted notOlder (insertByTimestamp x l).
Proof.
  induction 1 as [|y l Hl IH Hy]; simpl.
  - repeat constructor.
  - destruct (timestamp x <? timestamp y)%Z eqn:E.
    + constructor; [assumption|].
      apply (Permutation_Forall (Permutation_sym (insert_perm x l))).
      constructor; [|assumption].
      apply Z.ltb_lt in E. unfold notOlder. lia.
    + apply Z.ltb_ge in E. constructor.
      * now constructor.
      * constructor; [exact E|].
        eapply Forall_impl; [|exact Hy].
        unfold notOlder. intros; lia.
Qed.

(** Most recent first. *)
Lemma sort_sorted (l : list InvasiveReport) :
  StronglySorted notOlder (sortByTimestampDesc l).
Proof.
  induction l as [|x l IH]; simpl; [constructor|].
  now apply insert_sorted.
Qed.

(** A list already in order is left as it is. *)
Lemma sort_fixes_sorted (l : list InvasiveReport) :
  StronglySorted notOlder l -> sortByTimestampDesc l = l.
Proof.
  induction 1 as [|x l Hl IH Hx]; [reflexivity|].
  change (insertByTimestamp x (sortByTimestampDesc l) = x :: l).
  rewrite IH.
  destruct l as [|y l]; simpl; [reflexivity|].
  inversion Hx as [|? ? Hxy _]; subst.
  unfold notOlder in Hxy.
  now apply Z.ltb_ge in Hxy as ->.
Qed.

Lemma filter_sorted (f : InvasiveReport -> bool) (l : list InvasiveReport) :
  StronglySorted notOlder l -> StronglySorted notOlder (filter f l).
Proof.
  induction 1 as [|x l Hl IH Hx]; simpl; [constructor|].
  destruct (f x); [|assumption].
  constructor; [assumption|].
  apply Forall_forall. intros y Hy. apply filter_In in Hy.
  rewrite Forall_forall in Hx. now apply Hx.
Qed.

End SortFacts.

(* ------------------------------------------------------------------ *)
(** * The merge of [refresh] *)

Module MergeFacts.

Import ReportsContext.

Lemma mergedView_perm (local serverReports : list InvasiveReport) :
  Permutation (mergedView local serverReports)
              (serverReports ++ localOnly local serverReports).
Proof. apply SortFacts.sort_perm. Qed.

Lemma localOnly_In (local serverReports : list InvasiveReport)
    (r : InvasiveReport) :
  In r (localOnly local serverReports)
  <-> In r local
      /\ ~ In (id r) (map id serverReports)
      /\ (syncStatus r = pending \/ syncStatus r = failed).
Proof.
  unfold localOnly.
  rewrite filter_In, andb_true_iff, negb_true_iff, pendingOrFailed_iff.
  split; intros [H1 [H2 H3]]; repeat split; trivial.
  - now apply set_mem_complete1 in H2.
  - now apply set_mem_complete2.
Qed.

Lemma localOnly_no_server_id (local serverReports : list InvasiveReport)
    (i : string) :
  In i (map id serverReports) ->
  count_occ string_dec (map id (localOnly local serverReports)) i = 0%nat.
Proof.
  intros Hi. apply count_occ_not_In. intros Hin.
  apply in_map_iff in Hin. destruct Hin as [r [<- Hr]].
  apply localOnly_In in Hr. tauto.
Qed.

Lemma mergedView_count (local serverReports : list InvasiveReport)
    (i : string) :
  In i (map id serverReports) ->
  count_occ string_dec (map id (mergedView local serverReports)) i
  = count_occ string_dec (map id serverReports) i.
Proof.
  intros Hi.
  pose proof (Permutation_map id (mergedView_perm local serverReports)) as P.
  rewrite (Permutation_count_occ string_dec) in P. rewrite P.
  rewrite map_app, count_occ_app, localOnly_no_server_id by assumption.
  lia.
Qed.

End MergeFacts.

(** C1, as amended.  The merged view of [refresh] is a rearrangement of
    the server records followed by the local records whose id is not
    in the server set and whose status is pending or failed.  When an
    id is in the server fetch, the entries of the merged view with
    that id are server records only and are as many as the server
    fetch holds: no local copy is added, and the merged view has a
    single entry of that id when the ids of the server fetch are
    distinct. *)
Theorem merged_view_server_precedence
    (local serverReports : list InvasiveReport) :
  Permutation
    (ReportsContext.mergedView local serverReports)
    (serverReports
     ++ filter
          (fun r => negb (set_mem string_dec (id r) (map id serverReports))
                    && pendingOrFailed r)
          local)
  /\ (forall r,
        In r (ReportsContext.mergedView local serverReports)
        <-> In r serverReports
            \/ (In r local
                /\ ~ In (id r) (map id serverReports)
                /\ (syncStatus r = pending \/ syncStatus r = failed)))
  /\ (forall i,
        In i (map id serverReports) ->
        (forall r, In r (ReportsContext.mergedView local serverReports) ->
                   id r = i -> In r serverReports)
        /\ count_occ string_dec
             (map id (ReportsContext.mergedView local serverReports)) i
           = count_occ string_dec (map id serverReports) i
        /\ (NoDup (map id serverReports) ->
            count_occ string_dec
              (map id (ReportsContext.mergedView local serverReports)) i
            = 1%nat)).
Proof.
  pose proof (MergeFacts.mergedView_perm local serverReports) as P.
  assert (Hmem : forall r,
    In r (ReportsContext.mergedView local serverReports)
    <-> In r serverReports
        \/ (In r local
            /\ ~ In (id r) (map id serverReports)
            /\ (syncStatus r = pending \/ syncStatus r = failed))).
  { intros r. rewrite <- MergeFacts.localOnly_In, <- in_app_iff.
    split; apply Permutation_in; [exact P|now symmetry]. }
  split; [exact P|]. split; [exact Hmem|].
  intros i Hi. split; [|split].
  - intros r Hr <-. apply Hmem in Hr. tauto.
  - now apply MergeFacts.mergedView_count.
  - intros Hnd. rewrite MergeFacts.mergedView_count by assumption.
    now apply NoDup_count_occ'.
Qed.

Lemma merged_view_server_precedence_witness :
  ReportsContext.mergedView [Sample.localCopy; Sample.localNew]
    [Sample.serverCopy]
  = [Sample.localNew; Sample.serverCopy]
  /\ count_occ string_dec
       (map id (ReportsContext.mergedView
                  [Sample.localCopy; Sample.localNew] [Sample.serverCopy]))
       "s1"%string
     = 1%nat.
Proof.
  split; [reflexivity|].
  destruct (merged_view_server_precedence
              [Sample.localCopy; Sample.localNew] [Sample.serverCopy])
    as [_ [_ Hid]].
  destruct (Hid "s1"%string) as [_ [_ Hone]].
  - simpl. now left.
  - apply Hone. simpl. constructor; [intros []|constructor].
Defined.

(** C1, the claim as stated fails when the server fetch itself holds an
    id twice: both entries are in the merged view. *)
Lemma merged_view_two_entries_counterexample :
  let merged :=
    ReportsContext.mergedView [Sample.localCopy]
      [Sample.serverCopy; Sample.serverCopy] in
  merged = [Sample.serverCopy; Sample.serverCopy]
  /\ In "s1"%string (map id [Sample.localCopy])
  /\ count_occ string_dec (map id merged) "s1"%string = 2%nat.
Proof. repeat split. simpl. now left. Qed.

(* ------------------------------------------------------------------ *)
(** * The sync engine *)

Module SyncFacts.

Import SyncManager SyncOutcome.

Lemma id_finalOf (remote : Remote) (r : InvasiveReport) :
  id (finalOf remote r) = id r.
Proof.
  unfold finalOf. destruct (prediction r); [reflexivity|].
  now destruct (predictAnswer remote (imageUri r)).
Qed.

Lemma withBackfill_normal (remote : Remote) (r : InvasiveReport) (w : World) :
  withBackfill remote r w = (Normal (finalOf remote r), w).
Proof.
  unfold withBackfill, finalOf. destruct (prediction r); [reflexivity|].
  unfold tryCatch, bind, predictSpecies, ret.
  now destruct (predictAnswer remote (imageUri r)).
Qed.

Section Quiet.

Variable remote : Remote.
Hypothesis quiet : forall r, listenerThrows remote r = false.

Lemma notifyListeners_normal (r : InvasiveReport) (w : World) :
  notifyListeners remote r w = (Normal tt, logNotified r w).
Proof. unfold notifyListeners. now rewrite quiet. Qed.

(** One record of the pass: never an exception, whatever the classifier
    and the backend answer. *)
Lemma syncOne_normal (r : InvasiveReport) (w : World) :
  syncOne remote r w = (Normal tt, worldAfter remote w r).
Proof.
  unfold syncOne, worldAfter, accepted, bind, tryCatch.
  unfold updateReportStatus at 1. unfold modify at 1.
  rewrite notifyListeners_normal, withBackfill_normal.
  unfold uploadReport.
  destruct (uploadAccepted remote (payloadOf (finalOf remote r))).
  - unfold markReportSynced, modify.
    now rewrite notifyListeners_normal, id_finalOf.
  - unfold updateReportStatus, modify.
    now rewrite notifyListeners_normal.
Qed.

Lemma forOf_syncOne (l : list InvasiveReport) :
  forall w,
    forOf l (syncOne remote) w
    = (Normal tt, fold_left (worldAfter remote) l w).
Proof.
  induction l as [|r l IH]; intros w; [reflexivity|].
  simpl. unfold bind. now rewrite syncOne_normal, IH.
Qed.

Lemma runSync_normal (w : World) :
  isSyncing w = false ->
  netIsConnected remote = true ->
  runSync remote w
  = (Normal tt,
     setIsSyncing false
       (fold_left (worldAfter remote)
          (filter pendingOrFailed (PENDING_REPORTS (storage w)))
          (setIsSyncing true w))).
Proof.
  intros Hidle Hnet.
  unfold runSync, bind, gets, NetInfo_fetch, ret. rewrite Hidle, Hnet.
  simpl. unfold tryFinally, passBody, bind, getPendingReports, gets, modify.
  now rewrite forOf_syncOne.
Qed.

End Quiet.

(** ** Projections of the world after a run of records *)

Section Projections.

Variable remote : Remote.

Lemma storage_worldAfter (w : World) (r : InvasiveReport) :
  storage (worldAfter remote w r) = storeAfter remote (storage w) r.
Proof.
  unfold worldAfter, storeAfter. now destruct (accepted remote r).
Qed.

Lemma isSyncing_worldAfter (w : World) (r : InvasiveReport) :
  isSyncing (worldAfter remote w r) = isSyncing w.
Proof. unfold worldAfter. now destruct (accepted remote r). Qed.

Lemma uploadCalls_worldAfter (w : World) (r : InvasiveReport) :
  uploadCalls (worldAfter remote w r)
  = uploadCalls w ++ [payloadOf (finalOf remote r)].
Proof. unfold worldAfter. now destruct (accepted remote r). Qed.

Lemma storage_run (l : list InvasiveReport) :
  forall w,
    storage (fold_left (worldAfter remote) l w)
    = fold_left (storeAfter remote) l (storage w).
Proof.
  induction l as [|r l IH]; intros w; [reflexivity|].
  simpl. now rewrite IH, storage_worldAfter.
Qed.

Lemma uploadCalls_run (l : list InvasiveReport) :
  forall w,
    uploadCalls (fold_left (worldAfter remote) l w)
    = uploadCalls w ++ map (fun r => payloadOf (finalOf remote r)) l.
Proof.
  induction l as [|r l IH]; intros w; simpl.
  - now rewrite app_nil_r.
  - now rewrite IH, uploadCalls_worldAfter, <- app_assoc.
Qed.

End Projections.

End SyncFacts.

(* ------------------------------------------------------------------ *)
(** * The store after a pass *)

Module PassFacts.

Import StorageService SyncOutcome.

(** ** Lists keyed by id *)

Lemma same_id_same_report (l : list InvasiveReport) (a b : InvasiveReport) :
  NoDup (map id l) -> In a l -> In b l -> id a = id b -> a = b.
Proof.
  induction l as [|c l IH]; simpl; [contradiction|].
  intros Hnd Ha Hb E. inversion Hnd as [|? ? Hc Hl]; subst.
  destruct Ha as [->|Ha], Hb as [->|Hb]; trivial.
  - exfalso. apply Hc. rewrite E. now apply in_map.
  - exfalso. apply Hc. rewrite <- E. now apply in_map.
  - now apply IH.
Qed.

Lemma NoDup_ids_filter (f : InvasiveReport -> bool) (l : list InvasiveReport) :
  NoDup (map id l) -> NoDup (map id (filter f l)).
Proof.
  induction l as [|c l IH]; simpl; [trivial|].
  intros Hnd. inversion Hnd as [|? ? Hc Hl]; subst.
  destruct (f c); simpl; [|now apply IH].
  constructor; [|now apply IH].
  intros Hin. apply Hc. apply in_map_iff in Hin.
  destruct Hin as [r [E Hr]]. apply filter_In in Hr.
  rewrite <- E. apply in_map. tauto.
Qed.

Lemma find_by_id (l : list InvasiveReport) (x : InvasiveReport) :
  NoDup (map id l) -> In x l ->
  find (fun r => String.eqb (id r) (id x)) l = Some x.
Proof.
  induction l as [|c l IH]; simpl; [contradiction|].
  intros Hnd Hx. inversion Hnd as [|? ? Hc Hl]; subst.
  destruct Hx as [->|Hx].
  - now rewrite String.eqb_refl.
  - destruct (String.eqb (id c) (id x)) eqn:E; [|now apply IH].
    apply String.eqb_eq in E. exfalso. apply Hc. rewrite E.
    now apply in_map.
Qed.

Lemma flat_map_pointwise {A B C : Type} (f : A -> list B) (g : B -> list C)
    (k : A -> list C) (l : list A) :
  (forall a, In a l -> flat_map g (f a) = k a) ->
  flat_map g (flat_map f l) = flat_map k l.
Proof.
  induction l as [|a l IH]; intros H; simpl; [reflexivity|].
  rewrite flat_map_app, H by now left.
  f_equal. apply IH. intros b Hb. apply H. now right.
Qed.

Lemma flat_map_same {A B : Type} (f k : A -> list B) (l : list A) :
  (forall a, In a l -> f a = k a) -> flat_map f l = flat_map k l.
Proof.
  induction l as [|a l IH]; intros H; simpl; [reflexivity|].
  rewrite H by now left. f_equal. apply IH. intros b Hb. apply H. now right.
Qed.

Lemma flat_map_single {A : Type} (l : list A) :
  flat_map (fun a => [a]) l = l.
Proof.
  induction l as [|a l IH]; simpl; [reflexivity|]. now rewrite IH.
Qed.

(** ** One record *)

Section OneRecord.

Variable remote : Remote.

Local Abbreviation touch := (touch remote).

Lemma find_restatus (i : string) (st : SyncStatus) (l : list InvasiveReport) :
  find (fun r => String.eqb (id r) i)
    (map (fun r => if String.eqb (id r) i
                   then withSyncStatus r st else r) l)
  = option_map (fun t => withSyncStatus t st)
      (find (fun r => String.eqb (id r) i) l).
Proof.
  induction l as [|c l IH]; simpl; [reflexivity|].
  destruct (String.eqb (id c) i) eqn:E; simpl; now rewrite E.
Qed.

Lemma pending_storeAfter (s : Storage) (x : InvasiveReport) :
  PENDING_REPORTS (storeAfter remote s x)
  = flat_map (touch x) (PENDING_REPORTS s).
Proof.
  unfold storeAfter, SyncOutcome.touch, markReportSynced, updateReportStatus,
    getPendingReports, getSyncedReports; simpl.
  rewrite find_restatus.
  destruct (accepted remote x).
  - destruct (find _ (PENDING_REPORTS s)) as [t|] eqn:F; simpl.
    + clear F. induction (PENDING_REPORTS s) as [|c l IH];
        simpl; [reflexivity|].
      destruct (String.eqb (id c) (id x)) eqn:E; simpl; rewrite E; simpl;
        now rewrite IH.
    + induction (PENDING_REPORTS s) as [|c l IH]; simpl in *;
        [reflexivity|].
      destruct (String.eqb (id c) (id x)) eqn:E; [discriminate|].
      now rewrite IH.
  - simpl. induction (PENDING_REPORTS s) as [|c l IH];
      simpl; [reflexivity|].
    rewrite IH.
    destruct (String.eqb (id c) (id x)) eqn:E; simpl; now rewrite E.
Qed.

Lemma synced_storeAfter (s : Storage) (x : InvasiveReport) :
  NoDup (map id (PENDING_REPORTS s)) -> In x (PENDING_REPORTS s) ->
  SYNCED_REPORTS (storeAfter remote s x)
  = SYNCED_REPORTS s
    ++ (if accepted remote x then [withSyncStatus x uploaded] else []).
Proof.
  intros Hnd Hx.
  unfold storeAfter, markReportSynced, updateReportStatus,
    getPendingReports, getSyncedReports; simpl.
  rewrite find_restatus, (find_by_id _ _ Hnd Hx).
  destruct (accepted remote x); simpl; [reflexivity|].
  now rewrite app_nil_r.
Qed.

Lemma ids_touch (x : InvasiveReport) (l : list InvasiveReport) :
  NoDup (map id l) -> NoDup (map id (flat_map (touch x) l)).
Proof.
  induction l as [|c l IH]; simpl; [trivial|].
  intros Hnd. inversion Hnd as [|? ? Hc Hl]; subst.
  assert (Hrest : ~ In (id c) (map id (flat_map (touch x) l))).
  { intros Hin. apply Hc. apply in_map_iff in Hin.
    destruct Hin as [r [E Hr]]. apply in_flat_map in Hr.
    destruct Hr as [r0 [Hr0 Hr]]. unfold SyncOutcome.touch in Hr.
    assert (id r = id r0) as E0.
    { destruct (String.eqb (id r0) (id x)).
      - destruct (accepted remote x); [contradiction|].
        destruct Hr as [<-|[]]. reflexivity.
      - destruct Hr as [<-|[]]. reflexivity. }
    rewrite <- E, E0. now apply in_map. }
  rewrite map_app. unfold SyncOutcome.touch at 1.
  destruct (String.eqb (id c) (id x)).
  - destruct (accepted remote x); simpl; [now apply IH|].
    constructor; [exact Hrest|now apply IH].
  - simpl. constructor; [exact Hrest|now apply IH].
Qed.

Lemma touch_other (x y : InvasiveReport) :
  id y <> id x -> touch x y = [y].
Proof.
  intros Hne. unfold SyncOutcome.touch. apply String.eqb_neq in Hne. now rewrite Hne.
Qed.

(** ** A run of records, each pending and of distinct ids *)

Lemma storeAfter_run (l : list InvasiveReport) :
  forall s,
    NoDup (map id (PENDING_REPORTS s)) ->
    incl l (PENDING_REPORTS s) ->
    NoDup (map id l) ->
    PENDING_REPORTS (fold_left (storeAfter remote) l s)
    = flat_map (settle remote l) (PENDING_REPORTS s)
    /\ SYNCED_REPORTS (fold_left (storeAfter remote) l s)
       = SYNCED_REPORTS s
         ++ map (fun r => withSyncStatus r uploaded)
              (filter (accepted remote) l).
Proof.
  induction l as [|x l IH]; intros s Hnd Hincl Hl.
  - simpl. split; [|now rewrite app_nil_r].
    unfold settle. simpl. symmetry. apply flat_map_single.
  - inversion Hl as [|? ? Hx Hl']; subst.
    assert (Hxin : In x (PENDING_REPORTS s)) by (apply Hincl; now left).
    destruct (IH (storeAfter remote s x)) as [HP HS]; trivial.
    + rewrite pending_storeAfter. now apply ids_touch.
    + intros y Hy. rewrite pending_storeAfter. apply in_flat_map.
      exists y. split; [apply Hincl; now right|].
      rewrite touch_other; [now left|].
      intros E. apply Hx. rewrite <- E. now apply in_map.
    + simpl fold_left. rewrite HP, HS. split.
      * rewrite pending_storeAfter. apply flat_map_pointwise.
        assert (Hout : inBucket (id x) l = false).
        { apply not_true_is_false. intros Hex. apply Hx.
          now apply inBucket_In. }
        intros r Hr. unfold SyncOutcome.touch, settle.
        change (inBucket (id r) (x :: l))
          with (String.eqb (id x) (id r) || inBucket (id r) l).
        rewrite (String.eqb_sym (id x) (id r)).
        destruct (String.eqb (id r) (id x)) eqn:E.
        -- apply String.eqb_eq in E.
           assert (r = x) as -> by (now apply (same_id_same_report _ _ _ Hnd)).
           destruct (accepted remote x); simpl; [reflexivity|].
           change (id (withSyncStatus x failed)) with (id x).
           now rewrite Hout.
        -- simpl. now rewrite app_nil_r.
      * rewrite (synced_storeAfter _ _ Hnd Hxin). simpl filter.
        destruct (accepted remote x); simpl.
        -- now rewrite <- app_assoc.
        -- now rewrite app_nil_r.
Qed.

(** ** A whole pass *)

Lemma settle_pass (pend : list InvasiveReport) (r : InvasiveReport) :
  NoDup (map id pend) -> In r pend ->
  settle remote (filter pendingOrFailed pend) r = settlePass remote r.
Proof.
  intros Hnd Hr. unfold settle, settlePass.
  destruct (pendingOrFailed r) eqn:E.
  - replace (inBucket (id r) (filter pendingOrFailed pend)) with true;
      [reflexivity|].
    symmetry. apply inBucket_In. apply in_map. apply filter_In. now split.
  - replace (inBucket (id r) (filter pendingOrFailed pend)) with false;
      [reflexivity|].
    symmetry. apply not_true_is_false. intros Hin.
    apply inBucket_In, in_map_iff in Hin. destruct Hin as [y [Ey Hy]].
    apply filter_In in Hy. destruct Hy as [Hy Hsel].
    assert (y = r) as -> by (now apply (same_id_same_report pend)).
    congruence.
Qed.

Lemma storeAfter_pass (s : Storage) :
  NoDup (map id (PENDING_REPORTS s)) ->
  let final :=
    fold_left (storeAfter remote)
      (filter pendingOrFailed (PENDING_REPORTS s)) s in
  PENDING_REPORTS final = flat_map (settlePass remote) (PENDING_REPORTS s)
  /\ SYNCED_REPORTS final
     = SYNCED_REPORTS s
       ++ map (fun r => withSyncStatus r uploaded)
            (filter (accepted remote)
               (filter pendingOrFailed (PENDING_REPORTS s))).
Proof.
  intros Hnd final.
  destruct (storeAfter_run (filter pendingOrFailed (PENDING_REPORTS s)) s)
    as [HP HS]; trivial.
  - intros y Hy. apply filter_In in Hy. tauto.
  - now apply NoDup_ids_filter.
  - split; [|exact HS]. unfold final. rewrite HP.
    apply flat_map_same. intros r Hr. now apply settle_pass.
Qed.

End OneRecord.

End PassFacts.

(* ------------------------------------------------------------------ *)
(** * What a pass leaves untouched

    [updateReportStatus] and [markReportSynced] write [syncStatus] and
    nothing else: every record stored after a pass is a record stored
    before it, but for its status. *)

Module FrameFacts.

Import StorageService SyncOutcome.

Lemma restatusOf_refl (r : InvasiveReport) : restatusOf r r.
Proof. unfold restatusOf. now destruct r. Qed.

Lemma restatusOf_set (r : InvasiveReport) (st : SyncStatus) :
  restatusOf (withSyncStatus r st) r.
Proof. reflexivity. Qed.

Lemma restatusOf_trans (a b c : InvasiveReport) :
  restatusOf a b -> restatusOf b c -> restatusOf a c.
Proof. unfold restatusOf. intros -> ->. reflexivity. Qed.

Lemma comesFrom_refl (s : Storage) : comesFrom s s.
Proof. intros r Hr. exists r. split; [assumption|apply restatusOf_refl]. Qed.

Lemma comesFrom_trans (s3 s2 s1 : Storage) :
  comesFrom s3 s2 -> comesFrom s2 s1 -> comesFrom s3 s1.
Proof.
  intros H32 H21 r3 Hr3.
  destruct (H32 r3 Hr3) as [r2 [Hr2 E32]].
  destruct (H21 r2 Hr2) as [r1 [Hr1 E21]].
  exists r1. split; [assumption|]. now apply restatusOf_trans with r2.
Qed.

Lemma updateReportStatus_frame (i : string) (st : SyncStatus) (s : Storage) :
  comesFrom (updateReportStatus i st s) s.
Proof.
  intros r' Hr'. unfold stored, updateReportStatus, getPendingReports in *.
  simpl in Hr'. apply in_app_or in Hr'. destruct Hr' as [Hp|Hs].
  - apply in_map_iff in Hp. destruct Hp as [r [E Hr]].
    exists r. split; [apply in_or_app; now left|].
    destruct (String.eqb (id r) i); subst r'.
    + apply restatusOf_set.
    + apply restatusOf_refl.
  - exists r'. split; [apply in_or_app; now right|apply restatusOf_refl].
Qed.

Lemma markReportSynced_frame (i : string) (s : Storage) :
  comesFrom (markReportSynced i s) s.
Proof.
  unfold markReportSynced, getPendingReports, getSyncedReports.
  destruct (find (fun r => String.eqb (id r) i) (PENDING_REPORTS s))
    as [target|] eqn:F; [|apply comesFrom_refl].
  apply find_some in F. destruct F as [Ht _].
  intros r' Hr'. unfold stored in *. simpl in Hr'.
  rewrite app_assoc in Hr'. apply in_app_or in Hr'.
  destruct Hr' as [Hold|[<-|[]]].
  - exists r'. split; [|apply restatusOf_refl].
    apply in_app_or in Hold. apply in_or_app.
    destruct Hold as [Hp|Hs]; [left|now right].
    apply filter_In in Hp. tauto.
  - exists target. split; [apply in_or_app; now left|].
    apply restatusOf_set.
Qed.

Lemma storeAfter_frame (remote : Remote) (s : Storage) (x : InvasiveReport) :
  comesFrom (storeAfter remote s x) s.
Proof.
  unfold storeAfter. destruct (accepted remote x).
  - eapply comesFrom_trans;
      [apply markReportSynced_frame|apply updateReportStatus_frame].
  - eapply comesFrom_trans; apply updateReportStatus_frame.
Qed.

Lemma storeAfter_run_frame (remote : Remote) (l : list InvasiveReport) :
  forall s, comesFrom (fold_left (storeAfter remote) l s) s.
Proof.
  induction l as [|x l IH]; intros s; simpl; [apply comesFrom_refl|].
  eapply comesFrom_trans; [apply IH|apply storeAfter_frame].
Qed.

End FrameFacts.

(* ------------------------------------------------------------------ *)
(** * One pass of [runSync] *)

Module RunFacts.

Import SyncManager SyncOutcome.

Section Pass.

Variable remote : Remote.
Variable w : World.
Hypothesis idle : isSyncing w = false.
Hypothesis online : netIsConnected remote = true.
Hypothesis quiet : forall r, listenerThrows remote r = false.

Local Abbreviation pend := (PENDING_REPORTS (storage w)).
Local Abbreviation toSync := (filter pendingOrFailed pend).

(** The world after the pass. *)
Local Abbreviation final :=
  (setIsSyncing false
     (fold_left (worldAfter remote) toSync (setIsSyncing true w))).

Lemma pass_returns : runSync remote w = (Normal tt, final).
Proof. now apply SyncFacts.runSync_normal. Qed.

Lemma pass_uploads :
  uploadCalls final
  = uploadCalls w ++ map (fun r => payloadOf (finalOf remote r)) toSync.
Proof. simpl. now rewrite SyncFacts.uploadCalls_run. Qed.

Lemma pass_frame : StorageService.comesFrom (storage final) (storage w).
Proof.
  simpl. rewrite SyncFacts.storage_run. apply FrameFacts.storeAfter_run_frame.
Qed.

Hypothesis distinct : NoDup (map id pend).

Lemma pass_pending :
  PENDING_REPORTS (storage final) = flat_map (settlePass remote) pend.
Proof.
  simpl. rewrite SyncFacts.storage_run.
  now destruct (PassFacts.storeAfter_pass remote (storage w) distinct).
Qed.

Lemma pass_synced :
  SYNCED_REPORTS (storage final)
  = SYNCED_REPORTS (storage w)
    ++ map (fun r => withSyncStatus r uploaded)
         (filter (accepted remote) toSync).
Proof.
  simpl. rewrite SyncFacts.storage_run.
  now destruct (PassFacts.storeAfter_pass remote (storage w) distinct).
Qed.

Lemma id_settlePass (r0 r : InvasiveReport) :
  In r (settlePass remote r0) -> id r = id r0.
Proof.
  unfold settlePass.
  destruct (pendingOrFailed r0); [destruct (accepted remote r0)|];
    simpl; intros H; [contradiction| |];
    (destruct H as [H|H]; [now subst r|contradiction]).
Qed.

Lemma rejected_stays_failed (r : InvasiveReport) :
  In r pend -> pendingOrFailed r = true -> accepted remote r = false ->
  In (withSyncStatus r failed) (PENDING_REPORTS (storage final)).
Proof.
  intros Hr Hsel Hrej. rewrite pass_pending. apply in_flat_map.
  exists r. split; [assumption|].
  unfold settlePass. rewrite Hsel, Hrej. now left.
Qed.

Lemma accepted_leaves_pending (r : InvasiveReport) :
  In r pend -> pendingOrFailed r = true -> accepted remote r = true ->
  ~ In (id r) (map id (PENDING_REPORTS (storage final))).
Proof.
  intros Hr Hsel Hacc Hin. rewrite pass_pending in Hin.
  apply in_map_iff in Hin. destruct Hin as [r' [E Hr']].
  apply in_flat_map in Hr'. destruct Hr' as [r0 [Hr0 Hr']].
  pose proof (id_settlePass _ _ Hr') as E0.
  assert (r0 = r) as ->.
  { apply (PassFacts.same_id_same_report pend); trivial. congruence. }
  unfold settlePass in Hr'. now rewrite Hsel, Hacc in Hr'.
Qed.

Lemma accepted_is_synced (r : InvasiveReport) :
  In r pend -> pendingOrFailed r = true -> accepted remote r = true ->
  In (withSyncStatus r uploaded) (SYNCED_REPORTS (storage final)).
Proof.
  intros Hr Hsel Hacc. rewrite pass_synced. apply in_or_app. right.
  apply (in_map (fun r0 => withSyncStatus r0 uploaded)).
  apply filter_In. split; [|assumption].
  apply filter_In. now split.
Qed.

Lemma synced_copy_of (r r' : InvasiveReport) :
  In r pend ->
  In r' (SYNCED_REPORTS (storage final)) -> id r' = id r ->
  In r' (SYNCED_REPORTS (storage w)) \/ r' = withSyncStatus r uploaded.
Proof.
  intros Hr Hr' E. rewrite pass_synced in Hr'.
  apply in_app_or in Hr'. destruct Hr' as [Hold|Hnew]; [now left|].
  right. apply in_map_iff in Hnew. destruct Hnew as [r0 [<- Hr0]].
  apply filter_In in Hr0. destruct Hr0 as [Hr0 _].
  apply filter_In in Hr0. destruct Hr0 as [Hr0 _].
  f_equal. now apply (PassFacts.same_id_same_report pend).
Qed.

End Pass.

End RunFacts.

(** C6.  With listeners that do not throw, [runSync] returns normally
    whatever the classifier and the uploads answer: no exception
    leaves it.  A record whose upload is rejected is set to failed by
    [updateReportStatus], and the pass goes on: in a pass started while
    idle and connected every selected record is uploaded in turn,
    whatever became of the ones before it.  Over a pending bucket of
    distinct ids, a selected record whose upload is rejected stays in
    the pending bucket as failed, and one whose upload is accepted is
    in the synced bucket as uploaded and no longer pending.  With three
    pending records of which the second upload fails, the pass leaves
    the first and third uploaded in the synced bucket and the second
    failed in the pending bucket. *)
Theorem upload_failure_is_isolated :
  (forall (remote : Remote) (w : World),
      (forall r, listenerThrows remote r = false) ->
      exists w', SyncManager.runSync remote w = (Normal tt, w'))
  /\ (forall (remote : Remote) (w : World) (r : InvasiveReport),
        (forall r0, listenerThrows remote r0 = false) ->
        SyncOutcome.accepted remote r = false ->
        exists w',
          SyncManager.syncOne remote r w = (Normal tt, w')
          /\ storage w'
             = StorageService.updateReportStatus (id r) failed
                 (StorageService.updateReportStatus (id r) syncing
                    (storage w)))
  /\ (forall (remote : Remote) (w : World),
        isSyncing w = false ->
        netIsConnected remote = true ->
        (forall r, listenerThrows remote r = false) ->
        exists w',
          SyncManager.runSync remote w = (Normal tt, w')
          /\ uploadCalls w'
             = uploadCalls w
               ++ map (fun r => SyncManager.payloadOf
                                  (SyncOutcome.finalOf remote r))
                    (filter pendingOrFailed (PENDING_REPORTS (storage w)))
          /\ (NoDup (map id (PENDING_REPORTS (storage w))) ->
              PENDING_REPORTS (storage w')
              = flat_map (SyncOutcome.settlePass remote)
                  (PENDING_REPORTS (storage w))
              /\ forall r,
                   In r (PENDING_REPORTS (storage w)) ->
                   pendingOrFailed r = true ->
                   if SyncOutcome.accepted remote r
                   then In (withSyncStatus r uploaded)
                          (SYNCED_REPORTS (storage w'))
                        /\ ~ In (id r)
                               (map id (PENDING_REPORTS (storage w')))
                   else In (withSyncStatus r failed)
                          (PENDING_REPORTS (storage w'))))
  /\ (exists w',
        SyncManager.runSync Sample.secondUploadFails Sample.threePending
        = (Normal tt, w')
        /\ PENDING_REPORTS (storage w')
           = [withSyncStatus Sample.q2 failed]
        /\ SYNCED_REPORTS (storage w')
           = [withSyncStatus Sample.q1 uploaded;
              withSyncStatus Sample.q3 uploaded]).
Proof.
  split; [|split; [|split]].
  - intros remote w Hquiet.
    destruct (isSyncing w) eqn:Hbusy.
    + exists w. unfold SyncManager.runSync, bind, gets. now rewrite Hbusy.
    + destruct (netIsConnected remote) eqn:Hnet.
      * eexists. now apply RunFacts.pass_returns.
      * exists w.
        unfold SyncManager.runSync, bind, gets, SyncManager.NetInfo_fetch,
          ret.
        now rewrite Hbusy, Hnet.
  - intros remote w r Hquiet Hrej.
    eexists. split; [now apply SyncFacts.syncOne_normal|].
    rewrite SyncFacts.storage_worldAfter.
    unfold SyncOutcome.storeAfter. now rewrite Hrej.
  - intros remote w Hidle Hnet Hquiet.
    eexists. split; [now apply RunFacts.pass_returns|].
    split; [apply RunFacts.pass_uploads|].
    intros Hnd. split; [now apply RunFacts.pass_pending|].
    intros r Hr Hsel. destruct (SyncOutcome.accepted remote r) eqn:Hacc.
    + split.
      * now apply RunFacts.accepted_is_synced.
      * now apply RunFacts.accepted_leaves_pending.
    + now apply RunFacts.rejected_stays_failed.
  - eexists. split; [reflexivity|]. split; reflexivity.
Qed.

Lemma upload_failure_is_isolated_witness :
  exists w',
    SyncManager.runSync Sample.secondUploadFails Sample.threePending
    = (Normal tt, w')
    /\ In (withSyncStatus Sample.q2 failed) (PENDING_REPORTS (storage w'))
    /\ In (withSyncStatus Sample.q3 uploaded) (SYNCED_REPORTS (storage w')).
Proof.
  destruct upload_failure_is_isolated as [_ [_ [Hpass _]]].
  destruct (Hpass Sample.secondUploadFails Sample.threePending)
    as [w' [Hrun [_ Hstore]]].
  - reflexivity.
  - reflexivity.
  - reflexivity.
  - destruct Hstore as [_ Heach].
    { simpl. repeat constructor; simpl; intuition discriminate. }
    exists w'. split; [exact Hrun|]. split.
    + apply (Heach Sample.q2); [simpl; tauto|reflexivity].
    + apply (Heach Sample.q3); [simpl; tauto|reflexivity].
Defined.

(** C9.  A pending record without prediction, classified successfully
    during the pass and then uploaded successfully, is uploaded with
    the new prediction in the payload, and the prediction is not
    persisted: every record stored after the pass is a record stored
    before it but for its status.  Over a pending bucket of distinct
    ids the copy that [markReportSynced] appends to the synced bucket
    is made from the stored pending record and has no prediction, and
    the record is no longer in the pending bucket. *)
Theorem backfilled_prediction_is_not_persisted
    (remote : Remote) (w : World) (r : InvasiveReport) (p : MLPrediction) :
  isSyncing w = false ->
  netIsConnected remote = true ->
  (forall r0, listenerThrows remote r0 = false) ->
  In r (PENDING_REPORTS (storage w)) ->
  pendingOrFailed r = true ->
  prediction r = None ->
  predictAnswer remote (imageUri r) = Some p ->
  uploadAccepted remote (SyncManager.payloadOf (withPrediction r p)) = true ->
  exists w',
    SyncManager.runSync remote w = (Normal tt, w')
    /\ In (SyncManager.payloadOf (withPrediction r p)) (uploadCalls w')
    /\ p_prediction (SyncManager.payloadOf (withPrediction r p)) = Some p
    /\ StorageService.comesFrom (storage w') (storage w)
    /\ (forall r',
          In r' (StorageService.stored (storage w')) ->
          exists r0,
            In r0 (StorageService.stored (storage w))
            /\ id r' = id r0 /\ prediction r' = prediction r0)
    /\ (NoDup (map id (PENDING_REPORTS (storage w))) ->
        In (withSyncStatus r uploaded) (SYNCED_REPORTS (storage w'))
        /\ prediction (withSyncStatus r uploaded) = None
        /\ ~ In (id r) (map id (PENDING_REPORTS (storage w')))
        /\ (forall r',
              In r' (SYNCED_REPORTS (storage w')) -> id r' = id r ->
              In r' (SYNCED_REPORTS (storage w)) \/ prediction r' = None)).
Proof.
  intros Hidle Hnet Hquiet Hr Hsel Hnone Hpred Hup.
  assert (Hfinal : SyncOutcome.finalOf remote r = withPrediction r p).
  { unfold SyncOutcome.finalOf. now rewrite Hnone, Hpred. }
  assert (Hacc : SyncOutcome.accepted remote r = true).
  { unfold SyncOutcome.accepted. now rewrite Hfinal. }
  pose proof (RunFacts.pass_frame remote w) as Hframe.
  eexists. split; [now apply RunFacts.pass_returns|].
  split; [|split; [reflexivity|split; [exact Hframe|split]]].
  - rewrite RunFacts.pass_uploads. apply in_or_app. right.
    rewrite <- Hfinal.
    apply (in_map (fun r0 => SyncManager.payloadOf
                               (SyncOutcome.finalOf remote r0))).
    apply filter_In. now split.
  - intros r' Hr'. destruct (Hframe r' Hr') as [r0 [Hr0 E]].
    exists r0. split; [assumption|]. rewrite E. split; reflexivity.
  - intros Hnd. split; [now apply RunFacts.accepted_is_synced|].
    split; [exact Hnone|].
    split; [now apply RunFacts.accepted_leaves_pending|].
    intros r' Hr' E.
    destruct (RunFacts.synced_copy_of remote w Hnd r r' Hr Hr' E)
      as [Hold| ->]; [now left|now right].
Qed.

Lemma backfilled_prediction_is_not_persisted_witness :
  exists w',
    SyncManager.runSync Sample.secondUploadFails Sample.threePending
    = (Normal tt, w')
    /\ In (SyncManager.payloadOf
             (withPrediction Sample.q1 (Sample.sighted 0.80 high)))
          (uploadCalls w')
    /\ In (withSyncStatus Sample.q1 uploaded) (SYNCED_REPORTS (storage w'))
    /\ prediction (withSyncStatus Sample.q1 uploaded) = None.
Proof.
  destruct (backfilled_prediction_is_not_persisted
              Sample.secondUploadFails Sample.threePending
              Sample.q1 (Sample.sighted 0.80 high))
    as [w' [Hrun [Hpayload [_ [_ [_ Hcopy]]]]]].
  - reflexivity.
  - reflexivity.
  - reflexivity.
  - simpl. tauto.
  - reflexivity.
  - reflexivity.
  - reflexivity.
  - reflexivity.
  - destruct Hcopy as [Hsynced [Hnone _]].
    { simpl. repeat constructor; simpl; intuition discriminate. }
    exists w'. repeat split; assumption.
Defined.

(* ------------------------------------------------------------------ *)
(** * [refresh] *)

Module RefreshFacts.

Import ReportsContext.

(** The server set as [refresh] sees it: empty when the fetch fails. *)
Lemma fetch_or_empty (remote : Remote) (w : World) :
  tryCatch (fetchAllReports remote) (fun _ => ret []) w
  = (Normal (match fetchAnswer remote with Some l => l | None => [] end), w).
Proof.
  unfold tryCatch, fetchAllReports, ret. now destruct (fetchAnswer remote).
Qed.

Lemma localOnly_offline (local : list InvasiveReport) :
  localOnly local [] = filter pendingOrFailed local.
Proof. reflexivity. Qed.

Lemma mergedView_offline (s : Storage) :
  mergedView (StorageService.getAllReports s) []
  = filter pendingOrFailed (StorageService.getAllReports s).
Proof.
  unfold mergedView. rewrite localOnly_offline. simpl.
  apply SortFacts.sort_fixes_sorted, SortFacts.filter_sorted.
  apply SortFacts.sort_sorted.
Qed.

Lemma getAllReports_In (s : Storage) (r : InvasiveReport) :
  In r (StorageService.getAllReports s)
  <-> In r (PENDING_REPORTS s) \/ In r (SYNCED_REPORTS s).
Proof.
  unfold StorageService.getAllReports, StorageService.getPendingReports,
    StorageService.getSyncedReports.
  rewrite <- in_app_iff.
  split; apply Permutation_in;
    [apply SortFacts.sort_perm|symmetry; apply SortFacts.sort_perm].
Qed.

End RefreshFacts.

(** C7.  Whatever the server fetch answers, [refresh] returns normally
    and leaves [isRefreshing] false.  When the fetch fails the server
    set is empty and the view is local only: the local records whose
    status is pending or failed, most recent first. *)
Theorem refresh_never_raises
    (remote : Remote) (now : Z) (generateId : nat -> string) (w : World) :
  exists w',
    ReportsContext.refresh remote now generateId w = (Normal tt, w')
    /\ isRefreshing w' = false
    /\ ctxReports w'
       = ReportsContext.mergedView
           (StorageService.getAllReports (storage w))
           (match fetchAnswer remote with Some l => l | None => [] end)
    /\ (fetchAnswer remote = None ->
        ctxReports w'
        = filter pendingOrFailed (StorageService.getAllReports (storage w))
        /\ forall r,
             In r (ctxReports w')
             <-> (In r (PENDING_REPORTS (storage w))
                  \/ In r (SYNCED_REPORTS (storage w)))
                 /\ (syncStatus r = pending \/ syncStatus r = failed)).
Proof.
  eexists. split.
  - unfold ReportsContext.refresh, bind, tryFinally, modify, gets.
    rewrite RefreshFacts.fetch_or_empty. reflexivity.
  - split; [reflexivity|]. split; [reflexivity|].
    intros Hfail. simpl. rewrite Hfail.
    rewrite RefreshFacts.mergedView_offline. split; [reflexivity|].
    intros r.
    rewrite filter_In, RefreshFacts.getAllReports_In, pendingOrFailed_iff.
    tauto.
Qed.

Lemma refresh_never_raises_witness :
  exists w',
    ReportsContext.refresh Sample.secondUploadFails 1700000000000
      (fun _ => "z"%string) Sample.threePending
    = (Normal tt, w')
    /\ ctxReports w' = [Sample.q3; Sample.q2; Sample.q1].
Proof.
  destruct (refresh_never_raises Sample.secondUploadFails 1700000000000
              (fun _ => "z"%string) Sample.threePending)
    as [w' [Hrun [_ [_ Hlocal]]]].
  exists w'. split; [exact Hrun|].
  destruct Hlocal as [Hview _]; [reflexivity|].
  rewrite Hview. reflexivity.
Defined.

(* ------------------------------------------------------------------ *)
(** * The guard of [runSync] *)

Module GuardFacts.

Import SyncManager Interleaving.

(** Called while the flag is set, [runSync] does nothing. *)
Lemma runSync_busy (remote : Remote) (w : World) :
  isSyncing w = true -> runSync remote w = (Normal tt, w).
Proof. intros H. unfold runSync, bind, gets. now rewrite H. Qed.

(** Called offline, [runSync] does nothing. *)
Lemma runSync_offline (remote : Remote) (w : World) :
  isSyncing w = false -> netIsConnected remote = false ->
  runSync remote w = (Normal tt, w).
Proof.
  intros H1 H2. unfold runSync, bind, gets, NetInfo_fetch, ret.
  now rewrite H1, H2.
Qed.

(** The flag is clear when [runSync] completes, normally or not. *)
Lemma runSync_releases (remote : Remote) (w : World) :
  isSyncing w = false -> isSyncing (snd (runSync remote w)) = false.
Proof.
  intros H. unfold runSync, bind, gets, NetInfo_fetch, ret. rewrite H.
  destruct (netIsConnected remote); simpl; [|assumption].
  unfold tryFinally, modify.
  now destruct (passBody remote (setIsSyncing true w)).
Qed.

(** A pass whose body throws: the exception leaves [runSync], the flag
    is clear. *)
Lemma runSync_throwing_listener :
  exists w',
    runSync Sample.listenerFails Sample.threePending
    = (Thrown "listener", w')
    /\ isSyncing w' = false.
Proof. eexists. split; reflexivity. Qed.

(** One invocation resumed three times is [runSync]. *)
Lemma alone_is_runSync (remote : Remote) (w : World) :
  world (run remote [0; 0; 0]%nat
           {| invocations := [AtEntry]; world := w |})
  = snd (runSync remote w).
Proof.
  unfold run, schedule, runSync, bind, gets, NetInfo_fetch, ret; simpl.
  destruct (isSyncing w); simpl; [reflexivity|].
  destruct (netIsConnected remote); simpl; [|reflexivity].
  unfold modify at 1. reflexivity.
Qed.

End GuardFacts.

(** C8, the code on two invocations of [runSync] that both start before
    the first [NetInfo.fetch()] has resolved.  Each tests [isSyncing]
    while it is still false, then each sets it: two passes are in
    flight at once.  When the first pass ends, its [finally] clears the
    flag while the second pass is still running. *)
Theorem two_passes_in_flight :
  let bothInPass :=
    Interleaving.run Sample.secondUploadFails [0; 1; 0; 1]%nat
      Sample.twoCalls in
  let firstDone :=
    Interleaving.run Sample.secondUploadFails [0; 1; 0; 1; 0]%nat
      Sample.twoCalls in
  Interleaving.inFlight bothInPass = 2%nat
  /\ isSyncing (Interleaving.world bothInPass) = true
  /\ Interleaving.invocations firstDone
     = [Interleaving.Returned; Interleaving.InPass]
  /\ isSyncing (Interleaving.world firstDone) = false.
Proof. repeat split. Qed.

(* ------------------------------------------------------------------ *)
(** * More on the record store *)

Module StoreMore.

Import StorageService.

Lemma storage_eta (s : Storage) :
  {| PENDING_REPORTS := PENDING_REPORTS s;
     SYNCED_REPORTS := SYNCED_REPORTS s |} = s.
Proof. now destruct s. Qed.

Lemma drop_absent (i : string) (l : list InvasiveReport) :
  ~ In i (map id l) ->
  filter (fun r => negb (String.eqb (id r) i)) l = l.
Proof.
  induction l as [|r l IH]; simpl; [reflexivity|].
  intros Hout.
  destruct (String.eqb (id r) i) eqn:E; simpl.
  - apply String.eqb_eq in E. exfalso. apply Hout. now left.
  - rewrite IH; [reflexivity|]. intros Hin. apply Hout. now right.
Qed.

Lemma drop_twice (i : string) (l : list InvasiveReport) :
  filter (fun r => negb (String.eqb (id r) i))
    (filter (fun r => negb (String.eqb (id r) i)) l)
  = filter (fun r => negb (String.eqb (id r) i)) l.
Proof.
  apply drop_absent. rewrite ids_drop. intros Hin.
  apply in_drop in Hin. now destruct Hin.
Qed.

Lemma restatus_absent (i : string) (st : SyncStatus)
    (l : list InvasiveReport) :
  ~ In i (map id l) ->
  map (fun r => if String.eqb (id r) i then withSyncStatus r st else r) l
  = l.
Proof.
  induction l as [|r l IH]; simpl; [reflexivity|].
  intros Hout.
  destruct (String.eqb (id r) i) eqn:E.
  - apply String.eqb_eq in E. exfalso. apply Hout. now left.
  - rewrite IH; [reflexivity|]. intros Hin. apply Hout. now right.
Qed.

Lemma find_absent (i : string) (l : list InvasiveReport) :
  ~ In i (map id l) ->
  find (fun r => String.eqb (id r) i) l = None.
Proof.
  induction l as [|r l IH]; simpl; [reflexivity|].
  intros Hout.
  destruct (String.eqb (id r) i) eqn:E.
  - apply String.eqb_eq in E. exfalso. apply Hout. now left.
  - apply IH. intros Hin. apply Hout. now right.
Qed.

Lemma count_drop (i j : string) (l : list string) :
  count_occ string_dec (filter (fun k => negb (String.eqb k i)) l) j
  = if String.eqb j i then 0%nat else count_occ string_dec l j.
Proof.
  induction l as [|k l IH]; simpl.
  - now destruct (String.eqb j i).
  - destruct (String.eqb k i) eqn:E; simpl.
    + apply String.eqb_eq in E. subst k.
      destruct (string_dec i j) as [->|Hne].
      * now rewrite String.eqb_refl in *.
      * exact IH.
    + destruct (string_dec k j) as [->|Hne].
      * rewrite E in *. now rewrite IH.
      * exact IH.
Qed.

End StoreMore.

(** X1.  [saveReport] replaces by id: saving a report over one of the
    same id leaves the store as if only the second had been saved, and
    the pending bucket then holds that id exactly once, with the
    report last saved at the end. *)
Theorem saveReport_overwrites
    (first second : InvasiveReport) (s : Storage) :
  id first = id second ->
  StorageService.saveReport second (StorageService.saveReport first s)
  = StorageService.saveReport second s
  /\ count_occ string_dec
       (map id (PENDING_REPORTS (StorageService.saveReport second s)))
       (id second) = 1%nat
  /\ last (PENDING_REPORTS (StorageService.saveReport second s)) first
     = second.
Proof.
  intros E. unfold StorageService.saveReport,
    StorageService.getPendingReports; simpl.
  split; [|split].
  - f_equal. rewrite filter_app. simpl. rewrite E.
    rewrite String.eqb_refl. simpl. rewrite app_nil_r.
    now rewrite StoreMore.drop_twice.
  - rewrite map_app, count_occ_app, ids_drop, StoreMore.count_drop.
    rewrite String.eqb_refl. simpl.
    now destruct (string_dec (id second) (id second)).
  - apply last_last.
Qed.

Lemma saveReport_overwrites_witness :
  let edited := withSyncStatus Sample.q1 failed in
  PENDING_REPORTS
    (StorageService.saveReport edited
       (StorageService.saveReport Sample.q1 StorageService.emptyStorage))
  = [edited].
Proof.
  intros edited.
  destruct (saveReport_overwrites Sample.q1 edited
              StorageService.emptyStorage) as [Hsame _].
  - reflexivity.
  - rewrite Hsame. reflexivity.
Defined.

(** X2.  [markReportSynced] and [updateReportStatus] on an id that the
    pending bucket does not hold leave the store as it is, also when
    the synced bucket holds that id. *)
Theorem absent_id_changes_nothing
    (i : string) (status : SyncStatus) (s : Storage) :
  ~ In i (map id (PENDING_REPORTS s)) ->
  StorageService.markReportSynced i s = s
  /\ StorageService.updateReportStatus i status s = s.
Proof.
  intros Hout. split.
  - unfold StorageService.markReportSynced,
      StorageService.getPendingReports.
    now rewrite StoreMore.find_absent.
  - unfold StorageService.updateReportStatus,
      StorageService.getPendingReports.
    rewrite StoreMore.restatus_absent by assumption.
    apply StoreMore.storage_eta.
Qed.

Lemma absent_id_changes_nothing_witness :
  let s := StorageService.runOps Sample.saveSyncDelete
             StorageService.emptyStorage in
  StorageService.markReportSynced "zz" s = s
  /\ StorageService.updateReportStatus "zz" failed s = s.
Proof.
  intros s. apply (absent_id_changes_nothing "zz" failed s).
  simpl. intros [H|[]]. discriminate.
Defined.

(** X3.  [markReportSynced] is a move: when the ids of the pending
    bucket are distinct and hold [i], the pending bucket loses exactly
    the record of id [i], the synced bucket gains at its end that
    record with status uploaded, and the ids stored are the same as
    before. *)
Theorem markReportSynced_moves (r : InvasiveReport) (s : Storage) :
  NoDup (map id (PENDING_REPORTS s)) ->
  In r (PENDING_REPORTS s) ->
  let s' := StorageService.markReportSynced (id r) s in
  SYNCED_REPORTS s' = SYNCED_REPORTS s ++ [withSyncStatus r uploaded]
  /\ ~ In (id r) (map id (PENDING_REPORTS s'))
  /\ (forall r0, id r0 <> id r ->
                 (In r0 (PENDING_REPORTS s') <-> In r0 (PENDING_REPORTS s)))
  /\ Permutation (StorageService.storedIds s')
                 (StorageService.storedIds s).
Proof.
  intros Hnd Hr s'. unfold s', StorageService.markReportSynced,
    StorageService.getPendingReports, StorageService.getSyncedReports.
  rewrite (PassFacts.find_by_id _ _ Hnd Hr). simpl.
  split; [reflexivity|]. split; [|split].
  - rewrite ids_drop. intros Hin. apply in_drop in Hin. now destruct Hin.
  - intros r0 Hne. rewrite filter_In, negb_true_iff.
    split; [tauto|]. intros H. split; [assumption|].
    now apply String.eqb_neq.
  - unfold StorageService.storedIds. simpl.
    rewrite map_app, ids_drop. simpl.
    apply (Permutation_count_occ string_dec). intros j.
    rewrite !count_occ_app, StoreMore.count_drop. simpl.
    destruct (String.eqb j (id r)) eqn:E.
    + apply String.eqb_eq in E. subst j.
      match goal with
      | |- context [string_dec ?a ?b] =>
          destruct (string_dec a b) as [_|Hne]; [|now elim Hne]
      end.
      assert (Hone : count_occ string_dec (map id (PENDING_REPORTS s))
                       (id r) = 1%nat).
      { apply NoDup_count_occ'; [assumption|now apply in_map]. }
      lia.
    + apply String.eqb_neq in E.
      match goal with
      | |- context [string_dec ?a ?b] =>
          destruct (string_dec a b) as [Heq|_]; [|lia]
      end.
      now elim E.
Qed.

Lemma markReportSynced_moves_witness :
  SYNCED_REPORTS
    (StorageService.markReportSynced "q2" (storage Sample.threePending))
  = [withSyncStatus Sample.q2 uploaded].
Proof.
  destruct (markReportSynced_moves Sample.q2 (storage Sample.threePending))
    as [Hsynced _].
  - simpl. repeat constructor; simpl; intuition discriminate.
  - simpl. tauto.
  - exact Hsynced.
Defined.

(** X4.  [deleteReport] removes the id from both buckets and nothing
    else: no record of that id is left, the records of other ids are
    those of before, a second call changes nothing, and a call on an
    id that is not stored leaves the store as it is. *)
Theorem deleteReport_removes_only (i : string) (s : Storage) :
  let s' := StorageService.deleteReport i s in
  ~ In i (StorageService.storedIds s')
  /\ (forall r, id r <> i ->
                (In r (StorageService.stored s')
                 <-> In r (StorageService.stored s)))
  /\ StorageService.deleteReport i s' = s'
  /\ (~ In i (StorageService.storedIds s) -> s' = s).
Proof.
  intros s'. unfold s', StorageService.deleteReport,
    StorageService.getPendingReports, StorageService.getSyncedReports,
    StorageService.storedIds, StorageService.stored. simpl.
  split; [|split; [|split]].
  - rewrite !ids_drop, <- filter_app. intros Hin.
    apply in_drop in Hin. now destruct Hin.
  - intros r Hne. rewrite <- filter_app, filter_In, negb_true_iff.
    split; [tauto|]. intros H. split; [assumption|].
    now apply String.eqb_neq.
  - now rewrite !StoreMore.drop_twice.
  - intros Hout.
    rewrite !StoreMore.drop_absent.
    + apply StoreMore.storage_eta.
    + intros Hin. apply Hout. apply in_or_app. now right.
    + intros Hin. apply Hout. apply in_or_app. now left.
Qed.

Lemma deleteReport_removes_only_witness :
  StorageService.deleteReport "zz" (storage Sample.threePending)
  = storage Sample.threePending.
Proof.
  destruct (deleteReport_removes_only "zz" (storage Sample.threePending))
    as [_ [_ [_ Hsame]]].
  apply Hsame. simpl. intuition discriminate.
Defined.

(** X5.  [getAllReports] returns the records of the two buckets, each
    as often as stored, most recent first. *)
Theorem getAllReports_sorted_merge (s : Storage) :
  Permutation (StorageService.getAllReports s)
              (PENDING_REPORTS s ++ SYNCED_REPORTS s)
  /\ StronglySorted notOlder (StorageService.getAllReports s).
Proof.
  unfold StorageService.getAllReports, StorageService.getPendingReports,
    StorageService.getSyncedReports.
  split; [apply SortFacts.sort_perm|apply SortFacts.sort_sorted].
Qed.

(** X6.  A report saved under an id that is not stored is returned by
    [getAllReports], and deleting it gives back the store of before
    the save. *)
Theorem save_then_delete_restores (report : InvasiveReport) (s : Storage) :
  ~ In (id report) (StorageService.storedIds s) ->
  In report
    (StorageService.getAllReports (StorageService.saveReport report s))
  /\ StorageService.deleteReport (id report)
       (StorageService.saveReport report s) = s.
Proof.
  intros Hout. split.
  - apply RefreshFacts.getAllReports_In. left.
    unfold StorageService.saveReport. simpl.
    apply in_or_app. right. now left.
  - unfold StorageService.deleteReport, StorageService.saveReport,
      StorageService.getPendingReports, StorageService.getSyncedReports.
    simpl. rewrite filter_app. simpl. rewrite String.eqb_refl. simpl.
    rewrite app_nil_r, StoreMore.drop_twice.
    rewrite !StoreMore.drop_absent.
    + apply StoreMore.storage_eta.
    + intros Hin. apply Hout. apply in_or_app. now right.
    + intros Hin. apply Hout. apply in_or_app. now left.
Qed.

Lemma save_then_delete_restores_witness :
  StorageService.deleteReport "r1"
    (StorageService.saveReport Sample.r1 (storage Sample.threePending))
  = storage Sample.threePending.
Proof.
  destruct (save_then_delete_restores Sample.r1
              (storage Sample.threePending)) as [_ Hback].
  - simpl. intuition discriminate.
  - exact Hback.
Defined.

(* ------------------------------------------------------------------ *)
(** * More on the geometry utilities *)

Module GeoMore.

Local Open Scope R_scope.

Lemma distance_of_A (lat1 lon1 lat2 lon2 : R) :
  Geo.haversineDistanceKm lat1 lon1 lat2 lon2
  = 6371 * (2 * Geo.atan2
                  (sqrt (GeoUtil.haversineA lat1 lon1 lat2 lon2))
                  (sqrt (1 - GeoUtil.haversineA lat1 lon1 lat2 lon2))).
Proof. reflexivity. Qed.

Lemma toRad_half_diff (x y : R) :
  Geo.toRad (y - x) / 2 = - (Geo.toRad (x - y) / 2).
Proof. unfold Geo.toRad. lra. Qed.

Lemma haversineA_sym (lat1 lon1 lat2 lon2 : R) :
  GeoUtil.haversineA lat1 lon1 lat2 lon2
  = GeoUtil.haversineA lat2 lon2 lat1 lon1.
Proof.
  unfold GeoUtil.haversineA.
  rewrite (toRad_half_diff lat1 lat2), (toRad_half_diff lon1 lon2).
  rewrite !sin_neg. ring.
Qed.

Lemma haversine_sym (lat1 lon1 lat2 lon2 : R) :
  Geo.haversineDistanceKm lat1 lon1 lat2 lon2
  = Geo.haversineDistanceKm lat2 lon2 lat1 lon1.
Proof.
  rewrite !distance_of_A.
  now rewrite (haversineA_sym lat1 lon1 lat2 lon2).
Qed.








(** Two points of the equator less than 180 degrees apart. *)
Lemma haversine_equator (lon1 lon2 : R) :
  Rabs (lon2 - lon1) < 180 ->
  Geo.haversineDistanceKm 0 lon1 0 lon2
  = 6371 * (Rabs (lon2 - lon1) * PI / 180).
Proof.
  intros Hclose. unfold Geo.haversineDistanceKm, Geo.toRad.
  replace ((0 - 0) * PI / 180 / 2) with 0 by lra.
  replace (0 * PI / 180) with 0 by lra.
  rewrite sin_0, cos_0.
  replace (0 ^ 2 + 1 * 1 * sin ((lon2 - lon1) * PI / 180 / 2) ^ 2)
    with (sin ((lon2 - lon1) * PI / 180 / 2) ^ 2) by ring.
  rewrite GeoFacts.sin_sq_abs.
  set (g := Rabs ((lon2 - lon1) * PI / 180 / 2)).
  assert (Eg : g = Rabs (lon2 - lon1) * PI / 360).
  { unfold g.
    replace ((lon2 - lon1) * PI / 180 / 2)
      with ((lon2 - lon1) * (PI / 360)) by lra.
    rewrite Rabs_mult, (Rabs_right (PI / 360)); [lra|].
    pose proof GeoFacts.PI_bounds. lra. }
  rewrite GeoFacts.central_angle.
  - rewrite Eg. lra.
  - rewrite Eg. pose proof GeoFacts.PI_bounds.
    pose proof (Rabs_pos (lon2 - lon1)). split; nra.
Qed.

(** Three terms of the series of [2 atan (1/3) + atan (1/7)]. *)
Lemma PI_close : 3135 / 1000 < PI < 3143 / 1000.
Proof.
  pose proof (PI_2_3_7_ineq 0) as [Hlo _].
  pose proof (PI_2_3_7_ineq 1) as [_ Hhi].
  unfold sum_f_R0, tg_alt, PI_2_3_7_tg, Ratan_seq in Hlo, Hhi.
  simpl in Hlo, Hhi. split; lra.
Qed.

End GeoMore.

(** X7.  The haversine distance does not depend on the order of its
    two points. *)
Theorem haversine_symmetric (lat1 lon1 lat2 lon2 : R) :
  Geo.haversineDistanceKm lat1 lon1 lat2 lon2
  = Geo.haversineDistanceKm lat2 lon2 lat1 lon1.
Proof. apply GeoMore.haversine_sym. Qed.


(** X9.  The distance from a point to itself is 0; one degree of
    longitude on the equator, and one degree of latitude anywhere, is
    111.19 km to within half a kilometre. *)
Theorem haversine_sanity (lat lon : R) :
  Geo.haversineDistanceKm lat lon lat lon = 0%R
  /\ (Rabs (Geo.haversineDistanceKm 0 0 0 1 - 11119 / 100) <= 1 / 2)%R
  /\ (Rabs (Geo.haversineDistanceKm lat lon (lat + 1) lon - 11119 / 100)
      <= 1 / 2)%R.
Proof.
  pose proof GeoMore.PI_close as [Hlo Hhi].
  split; [apply GeoFacts.haversine_same_point|]. split.
  - rewrite GeoMore.haversine_equator;
      replace (1 - 0)%R with 1%R by lra; rewrite Rabs_R1; [|lra].
    apply Rabs_le. lra.
  - rewrite GeoFacts.haversine_meridian;
      replace (lat + 1 - lat)%R with 1%R by lra; rewrite Rabs_R1; [|lra].
    apply Rabs_le. lra.
Qed.

Module ClampFacts.

Lemma clamp_within (value min max : Q) :
  min <= max ->
  min <= GeoUtil.clamp value min max /\ GeoUtil.clamp value min max <= max.
Proof.
  intros H. unfold GeoUtil.clamp. split.
  - apply Q.min_glb; [apply Q.le_max_r|assumption].
  - apply Q.le_min_r.
Qed.

Lemma clamp_inside (value min max : Q) :
  min <= value -> value <= max -> GeoUtil.clamp value min max == value.
Proof.
  intros H1 H2. unfold GeoUtil.clamp.
  rewrite (Q.max_l value min H1). now apply Q.min_l.
Qed.

End ClampFacts.

(** X10.  [clamp] with bounds in order returns a value between the
    bounds, returns its argument when that is between them, and
    clamping twice is clamping once; with bounds out of order it
    returns the upper one. *)
Theorem clamp_stays_within (value min max : Q) :
  (min <= max ->
   min <= GeoUtil.clamp value min max
   /\ GeoUtil.clamp value min max <= max
   /\ GeoUtil.clamp (GeoUtil.clamp value min max) min max
      == GeoUtil.clamp value min max)
  /\ (min <= value -> value <= max ->
      GeoUtil.clamp value min max == value)
  /\ (max < min -> GeoUtil.clamp value min max == max).
Proof.
  split; [|split].
  - intros H. destruct (ClampFacts.clamp_within value min max H) as [H1 H2].
    split; [assumption|]. split; [assumption|].
    now apply ClampFacts.clamp_inside.
  - apply ClampFacts.clamp_inside.
  - intros H. unfold GeoUtil.clamp. apply Q.min_r.
    apply Qle_trans with min; [now apply Qlt_le_weak|apply Q.le_max_r].
Qed.

Lemma clamp_stays_within_witness :
  GeoUtil.clamp 1.7 0 1 == 1
  /\ GeoUtil.clamp 0.4 0 1 == 0.4
  /\ GeoUtil.clamp 0.4 1 0 == 0.
Proof.
  destruct (clamp_stays_within 0.4 0 1) as [_ [Hin _]].
  destruct (clamp_stays_within 0.4 1 0) as [_ [_ Hswap]].
  split; [reflexivity|]. split.
  - apply Hin; discriminate.
  - apply Hswap. reflexivity.
Defined.

Module UuidFacts.

Lemma draw_range (random : nat -> Q) (k : nat) :
  0 <= random k -> random k < 1 ->
  (0 <= GeoUtil.draw random k < 16)%Z.
Proof.
  intros Hlo Hhi. unfold GeoUtil.draw. split.
  - change 0%Z with (Qfloor 0). apply Qfloor_resp_le.
    apply Qmult_le_0_compat; [assumption|discriminate].
  - pose proof (Qfloor_le (random k * 16)) as Hfloor.
    assert (Hlt : inject_Z (Qfloor (random k * 16)) < inject_Z 16).
    { apply Qle_lt_trans with (random k * 16); [assumption|].
      change (inject_Z 16) with (1 * 16). apply Qmult_lt_r; trivial.
      reflexivity. }
    now rewrite <- Zlt_Qlt in Hlt.
Qed.

Lemma hexDigit_hex (v : Z) :
  GeoUtil.isHexDigit (GeoUtil.hexDigit v) = true.
Proof.
  destruct v as [|p|p]; try reflexivity.
  do 4 (try destruct p as [p|p|]); reflexivity.
Qed.

(** [(r & 0x3) | 0x8] is 8, 9, 10 or 11. *)
Lemma variant_digit (r : Z) :
  In (GeoUtil.hexDigit (Z.lor (Z.land r 3) 8))
     ["8"; "9"; "a"; "b"]%char.
Proof.
  change 3%Z with (Z.ones 2). rewrite Z.land_ones by lia.
  pose proof (Z.mod_pos_bound r (2 ^ 2) ltac:(lia)) as Hm.
  change (2 ^ 2)%Z with 4%Z in *.
  assert (H : (r mod 4 = 0 \/ r mod 4 = 1 \/ r mod 4 = 2 \/ r mod 4 = 3)%Z)
    by lia.
  destruct H as [-> | [-> | [-> | ->]]]; simpl; tauto.
Qed.

End UuidFacts.

(** X11.  Whatever [Math.random()] returns in [0, 1), every draw
    [(Math.random() * 16) | 0] is between 0 and 15 and [generateId]
    returns 36 characters of the shape 8-4-4-4-12: hyphens at
    positions 8, 13, 18 and 23, the digit 4 at position 14, one of
    8, 9, a, b at position 19, and lower-case hexadecimal digits
    elsewhere. *)
Theorem generateId_is_uuid_v4 (random : nat -> Q) :
  (forall k, 0 <= random k /\ random k < 1) ->
  let u := GeoUtil.generateId random in
  (forall k, (0 <= GeoUtil.draw random k < 16)%Z)
  /\ String.length u = 36%nat
  /\ substring 8 1 u = "-"%string
  /\ substring 13 1 u = "-"%string
  /\ substring 18 1 u = "-"%string
  /\ substring 23 1 u = "-"%string
  /\ substring 14 1 u = "4"%string
  /\ (exists c, substring 19 1 u = String c EmptyString
                /\ In c ["8"; "9"; "a"; "b"]%char)
  /\ forallb GeoUtil.isHexDigit
       (list_ascii_of_string
          (substring 0 8 u ++ substring 9 4 u ++ substring 14 4 u
           ++ substring 19 4 u ++ substring 24 12 u)%string) = true.
Proof.
  intros Hrandom u.
  split; [intros k; now apply UuidFacts.draw_range; apply Hrandom|].
  unfold u.
  cbv - [GeoUtil.draw GeoUtil.hexDigit GeoUtil.isHexDigit Z.lor Z.land In].
  repeat (split; [reflexivity|]).
  split.
  - eexists. split; [reflexivity|apply UuidFacts.variant_digit].
  - rewrite !UuidFacts.hexDigit_hex. reflexivity.
Qed.

Lemma generateId_is_uuid_v4_witness :
  let u := GeoUtil.generateId (fun k => inject_Z (Z.of_nat (k mod 16)) / 16) in
  String.length u = 36%nat
  /\ substring 14 1 u = "4"%string
  /\ u = "01234567-89ab-4cde-b012-3456789abcde"%string.
Proof.
  intros u.
  destruct (generateId_is_uuid_v4
              (fun k => inject_Z (Z.of_nat (k mod 16)) / 16))
    as [_ [Hlen [_ [_ [_ [_ [Hfour _]]]]]]].
  - intros k. pose proof (Nat.mod_upper_bound k 16 ltac:(lia)) as Hk.
    split.
    + apply Qle_shift_div_l; [reflexivity|].
      rewrite Qmult_0_l. change 0 with (inject_Z 0).
      rewrite <- Zle_Qle. lia.
    + apply Qlt_shift_div_r; [reflexivity|].
      change (1 * 16) with (inject_Z 16). rewrite <- Zlt_Qlt. lia.
  - split; [exact Hlen|]. split; [exact Hfour|]. vm_compute. reflexivity.
Defined.

(** X12.  [isWithinDays] is monotone: a date within the window stays
    within it when the window is widened, when the date is later, and
    when the clock reads earlier. *)
Theorem isWithinDays_monotone
    (now now' date date' : Z) (days days' : Q) :
  Geo.isWithinDays now date days = true ->
  (now' <= now)%Z -> (date <= date')%Z -> days <= days' ->
  Geo.isWithinDays now' date' days' = true.
Proof.
  rewrite !WindowFacts.isWithinDays_iff. intros Hin Hnow Hdate Hdays.
  apply Qle_trans with (inject_Z (now - date)).
  - rewrite <- Zle_Qle. lia.
  - apply Qle_trans with (days * 86400000); [assumption|].
    apply Qmult_le_compat_r; [assumption|discriminate].
Qed.

Lemma isWithinDays_monotone_witness :
  Geo.isWithinDays 1700000000000 1699900000000 7 = true.
Proof.
  apply (isWithinDays_monotone 1700000000000 1700000000000
           1699900000000 1699900000000 2 7).
  - reflexivity.
  - lia.
  - lia.
  - discriminate.
Defined.

(* ------------------------------------------------------------------ *)
(** * More on the outbreak detector *)

Module DetectorMore.

Import OUTBREAK_CONFIG OutbreakService.

Lemma radius_is_5 : Q2R RADIUS_KM = 5%R.
Proof. unfold Q2R; simpl; lra. Qed.

Lemma withinRadius_refl (a : InvasiveReport) : withinRadius a a = true.
Proof.
  unfold withinRadius.
  destruct (Rle_dec _ _) as [_|Hn]; [reflexivity|].
  exfalso. apply Hn.
  rewrite GeoFacts.haversine_same_point, radius_is_5. lra.
Qed.

Lemma withinRadius_sym (a b : InvasiveReport) :
  withinRadius a b = withinRadius b a.
Proof.
  unfold withinRadius.
  now rewrite (GeoMore.haversine_sym
                 (Q2R (latitude (coordinates a)))
                 (Q2R (longitude (coordinates a)))).
Qed.

Lemma candidatesOf_idem (now : Z) (l : list InvasiveReport) :
  candidatesOf now (candidatesOf now l) = candidatesOf now l.
Proof.
  unfold candidatesOf. induction l as [|r l IH]; simpl; [reflexivity|].
  destruct (isHighRisk r && Geo.isWithinDays now (timestamp r)
                              TIME_WINDOW_DAYS) eqn:E; simpl.
  - now rewrite E, IH.
  - exact IH.
Qed.

Lemma clusterOf_incl (candidates : list InvasiveReport)
    (a r : InvasiveReport) :
  In r (clusterOf candidates a)
  <-> In r candidates /\ withinRadius a r = true.
Proof. unfold clusterOf. apply filter_In. Qed.

Lemma clusterOf_length (candidates : list InvasiveReport)
    (a : InvasiveReport) :
  (length (clusterOf candidates a) <= length candidates)%nat.
Proof. unfold clusterOf. apply filter_length_le. Qed.

Section Sweep.

Variable now : Z.
Variable generateId : nat -> string.
Variable candidates : list InvasiveReport.

Local Abbreviation visit := (visit now generateId candidates).
Local Abbreviation sweep := (sweep now generateId candidates).
Local Abbreviation zoneOf := (zoneOf now generateId).

(** What [visit] does, by cases. *)
Lemma visit_cases (st : Sweep) (a : InvasiveReport) :
  visit st a = st
  \/ (has (used st) (id a) = false
      /\ (MIN_REPORTS <= length (clusterOf candidates a))%nat
      /\ visit st a
         = {| zones := zones st
                       ++ [zoneOf (length (zones st))
                             (clusterOf candidates a)];
              used := addAll (used st) (clusterOf candidates a) |}).
Proof.
  unfold OutbreakService.visit.
  destruct (has (used st) (id a)); [now left|].
  destruct (MIN_REPORTS <=? length (clusterOf candidates a))%nat eqn:E;
    [|now left].
  right. apply Nat.leb_le in E. auto.
Qed.

(** A property of zones kept by the sweep. *)
Lemma sweep_zones_ind (P : OutbreakZone -> Prop)
    (anchors : list InvasiveReport) :
  (forall a k,
      In a anchors ->
      (MIN_REPORTS <= length (clusterOf candidates a))%nat ->
      P (zoneOf k (clusterOf candidates a))) ->
  forall st,
    Forall P (zones st) -> Forall P (zones (sweep st anchors)).
Proof.
  induction anchors as [|a anchors IH]; intros Hnew st Hst; [exact Hst|].
  rewrite DetectorFacts.sweep_cons. apply IH.
  - intros a' k Ha'. apply Hnew. now right.
  - destruct (visit_cases st a) as [->|[_ [Hsize ->]]]; [exact Hst|].
    simpl. apply Forall_app. split; [exact Hst|].
    constructor; [|constructor]. apply Hnew; [now left|exact Hsize].
Qed.

Lemma eachBringsOne_snoc (zs : list OutbreakZone) (z : OutbreakZone)
    (a : InvasiveReport) :
  ZoneProps.eachBringsOne zs ->
  In a (reports z) ->
  (forall z', In z' zs -> ~ In (id a) (map id (reports z'))) ->
  ZoneProps.eachBringsOne (zs ++ [z]).
Proof.
  intros Hzs Ha Hfresh pre z0 post E.
  destruct (exists_last (l := z0 :: post)) as [body [y Ey]];
    [discriminate|].
  destruct body as [|b body].
  - simpl in Ey. destruct post as [|? ?]; [|destruct post; discriminate].
    injection Ey as ->.
    apply app_inj_tail in E. destruct E as [-> ->].
    exists a. split; assumption.
  - simpl in Ey. injection Ey as <- Epost. subst post.
    change (pre ++ z0 :: body ++ [y]) with (pre ++ (z0 :: body) ++ [y]) in E.
    rewrite app_assoc in E. apply app_inj_tail in E. destruct E as [E _].
    apply (Hzs pre z0 body). now rewrite E.
Qed.

Lemma visit_keeps (st : Sweep) (a : InvasiveReport) :
  In a candidates ->
  ZoneProps.marksMembers st /\ ZoneProps.eachBringsOne (zones st) ->
  ZoneProps.marksMembers (visit st a) /\ ZoneProps.eachBringsOne (zones (visit st a)).
Proof.
  intros Ha [Hmarks Hfresh].
  destruct (visit_cases st a) as [->|[Hfree [_ ->]]]; [now split|].
  split.
  - unfold ZoneProps.marksMembers in *. simpl. intros i.
    rewrite DetectorFacts.addAll_In, Hmarks. split.
    + intros [[z [Hz Hi]]|Hi].
      * exists z. split; [apply in_or_app; now left|assumption].
      * eexists. split; [apply in_or_app; right; now left|exact Hi].
    + intros [z [Hz Hi]]. apply in_app_or in Hz.
      destruct Hz as [Hz|[<-|[]]]; [left; now exists z|now right].
  - simpl. apply (eachBringsOne_snoc _ _ a); trivial.
    + simpl. apply clusterOf_incl. split; [assumption|].
      apply withinRadius_refl.
    + intros z' Hz' Hin.
      apply set_mem_complete1 in Hfree. apply Hfree.
      apply Hmarks. now exists z'.
Qed.

Lemma sweep_keeps (anchors : list InvasiveReport) :
  incl anchors candidates ->
  forall st,
    ZoneProps.marksMembers st /\ ZoneProps.eachBringsOne (zones st) ->
    ZoneProps.marksMembers (sweep st anchors)
    /\ ZoneProps.eachBringsOne (zones (sweep st anchors)).
Proof.
  induction anchors as [|a anchors IH]; intros Hincl st Hst; [exact Hst|].
  rewrite DetectorFacts.sweep_cons. apply IH.
  - intros r Hr. apply Hincl. now right.
  - apply visit_keeps; [apply Hincl; now left|exact Hst].
Qed.

End Sweep.

End DetectorMore.

Module DetectorRuns2.

Import OUTBREAK_CONFIG OutbreakService DetectorRuns.

Section Runs.

Variable now : Z.
Variable generateId : nat -> string.

Lemma candidates_chainFromMiddle :
  candidatesOf now (Sample2.chainFromMiddle now)
  = Sample2.chainFromMiddle now.
Proof.
  apply candidates_hot.
  repeat (constructor; [do 2 eexists; reflexivity|]). constructor.
Qed.

Lemma chainFromMiddle_all_near (r : InvasiveReport) :
  In r (Sample2.chainFromMiddle now) ->
  withinRadius (Sample.hot now "b" 34.03) r = true.
Proof.
  unfold Sample2.chainFromMiddle. simpl.
  intros H; repeat (destruct H as [<-|H]; [within; reflexivity|]).
  contradiction.
Qed.

Lemma detect_chainFromMiddle :
  detectOutbreaks now generateId (Sample2.chainFromMiddle now)
  = [zoneOf now generateId 0 (Sample2.chainFromMiddle now)].
Proof.
  rewrite <- candidates_chainFromMiddle at 2.
  apply DetectorFacts.one_zone_of_all.
  - rewrite candidates_chainFromMiddle. simpl. unfold MIN_REPORTS. lia.
  - rewrite candidates_chainFromMiddle. intros r Hr.
    now apply chainFromMiddle_all_near.
Qed.

Lemma chain_permuted :
  Permutation (Sample.chain now) (Sample2.chainFromMiddle now).
Proof. apply perm_swap. Qed.

Lemma chain_not_transitive :
  withinRadius (Sample.hot now "a" 34.00) (Sample.hot now "b" 34.03) = true
  /\ withinRadius (Sample.hot now "b" 34.03) (Sample.hot now "f" 34.06)
     = true
  /\ withinRadius (Sample.hot now "a" 34.00) (Sample.hot now "f" 34.06)
     = false.
Proof. repeat split; within; reflexivity. Qed.

End Runs.

End DetectorRuns2.

(** X13.  Every zone returned by [detectOutbreaks] is the cluster of
    one of its own members, the anchor: it has at least MIN_REPORTS
    members, [reportCount] is their number, [radiusKm] is RADIUS_KM,
    [detectedAt] is the time of the pass, and every member is a report
    of the input that is high-risk, within the time window, and within
    the radius of the anchor. *)
Theorem zones_are_qualifying_clusters
    (now : Z) (generateId : nat -> string)
    (reports0 : list InvasiveReport) (z : OutbreakZone) :
  In z (OutbreakService.detectOutbreaks now generateId reports0) ->
  exists anchor,
    In anchor (reports z)
    /\ reports z
       = OutbreakService.clusterOf
           (OutbreakService.candidatesOf now reports0) anchor
    /\ (OUTBREAK_CONFIG.MIN_REPORTS <= reportCount z)%nat
    /\ reportCount z = length (reports z)
    /\ radiusKm z = OUTBREAK_CONFIG.RADIUS_KM
    /\ detectedAt z = now
    /\ forall r,
         In r (reports z) ->
         In r reports0
         /\ OutbreakService.isHighRisk r = true
         /\ Geo.isWithinDays now (timestamp r)
              OUTBREAK_CONFIG.TIME_WINDOW_DAYS = true
         /\ OutbreakService.withinRadius anchor r = true.
Proof.
  set (candidates := OutbreakService.candidatesOf now reports0).
  intros Hz.
  pose proof (DetectorMore.sweep_zones_ind now generateId candidates
    (fun z => exists anchor,
       In anchor (reports z)
       /\ reports z = OutbreakService.clusterOf candidates anchor
       /\ (OUTBREAK_CONFIG.MIN_REPORTS <= reportCount z)%nat
       /\ reportCount z = length (reports z)
       /\ radiusKm z = OUTBREAK_CONFIG.RADIUS_KM
       /\ detectedAt z = now
       /\ forall r,
            In r (reports z) ->
            In r reports0
            /\ OutbreakService.isHighRisk r = true
            /\ Geo.isWithinDays now (timestamp r)
                 OUTBREAK_CONFIG.TIME_WINDOW_DAYS = true
            /\ OutbreakService.withinRadius anchor r = true)
    candidates) as Hind.
  assert (Hall : Forall
    (fun z => exists anchor,
       In anchor (reports z)
       /\ reports z = OutbreakService.clusterOf candidates anchor
       /\ (OUTBREAK_CONFIG.MIN_REPORTS <= reportCount z)%nat
       /\ reportCount z = length (reports z)
       /\ radiusKm z = OUTBREAK_CONFIG.RADIUS_KM
       /\ detectedAt z = now
       /\ forall r,
            In r (reports z) ->
            In r reports0
            /\ OutbreakService.isHighRisk r = true
            /\ Geo.isWithinDays now (timestamp r)
                 OUTBREAK_CONFIG.TIME_WINDOW_DAYS = true
            /\ OutbreakService.withinRadius anchor r = true)
    (OutbreakService.detectOutbreaks now generateId reports0)).
  { apply Hind; [|constructor].
    intros a k Ha Hsize. exists a. simpl. split.
    - apply DetectorMore.clusterOf_incl. split; [assumption|].
      apply DetectorMore.withinRadius_refl.
    - repeat split; trivial;
        apply DetectorMore.clusterOf_incl in H;
        destruct H as [Hcand Hnear]; trivial;
        apply WindowFacts.candidatesOf_In in Hcand; tauto. }
  rewrite Forall_forall in Hall. exact (Hall z Hz).
Qed.

Lemma zones_are_qualifying_clusters_witness :
  let now := 1700000000000%Z in
  let z := OutbreakService.zoneOf now (fun _ => "z0"%string) 0
             (Sample.fiveNear now) in
  exists anchor,
    In anchor (reports z) /\ (5 <= reportCount z)%nat.
Proof.
  intros now z.
  destruct (zones_are_qualifying_clusters now (fun _ => "z0"%string)
              (Sample.fiveNear now) z) as [anchor [Hin [_ [Hsize _]]]].
  - rewrite DetectorRuns.detect_fiveNear. now left.
  - exists anchor. split; assumption.
Defined.

(** X14.  Every zone returned by [detectOutbreaks] holds a report, its
    anchor, that is a member of none of the zones returned before it;
    so no zone is made of reports of earlier zones only. *)
Theorem each_zone_brings_a_report
    (now : Z) (generateId : nat -> string)
    (reports0 : list InvasiveReport)
    (pre post : list OutbreakZone) (z : OutbreakZone) :
  OutbreakService.detectOutbreaks now generateId reports0
  = pre ++ z :: post ->
  exists a,
    In a (reports z)
    /\ forall z', In z' pre -> ~ In (id a) (map id (reports z')).
Proof.
  destruct (DetectorMore.sweep_keeps now generateId
              (OutbreakService.candidatesOf now reports0)
              (OutbreakService.candidatesOf now reports0)
              (incl_refl _) OutbreakService.startSweep) as [_ Hfresh].
  - split.
    + intros i. simpl. split; [contradiction|].
      intros [z0 [[] _]].
    + intros p z0 q E. destruct p; discriminate.
  - apply Hfresh.
Qed.

Lemma each_zone_brings_a_report_witness :
  let now := 1700000000000%Z in
  exists a,
    In a (Sample.middleFour now ++ [Sample.hot now "f" 34.06])
    /\ ~ In (id a) (map id (Sample.hot now "a" 34.00
                            :: Sample.middleFour now)).
Proof.
  intros now.
  destruct (each_zone_brings_a_report now (fun _ => "z"%string)
              (Sample.chain now)
              [OutbreakService.zoneOf now (fun _ => "z"%string) 0
                 (Sample.hot now "a" 34.00 :: Sample.middleFour now)]
              []
              (OutbreakService.zoneOf now (fun _ => "z"%string) 1
                 (Sample.middleFour now ++ [Sample.hot now "f" 34.06])))
    as [a [Ha Hfresh]].
  - apply DetectorRuns.detect_chain.
  - exists a. split; [exact Ha|]. apply (Hfresh _ (or_introl eq_refl)).
Defined.

(** X15.  With fewer than MIN_REPORTS qualifying reports, and so on an
    empty input, [detectOutbreaks] returns no zone. *)
Theorem too_few_candidates_no_zone
    (now : Z) (generateId : nat -> string)
    (reports0 : list InvasiveReport) :
  (length (OutbreakService.candidatesOf now reports0)
   < OUTBREAK_CONFIG.MIN_REPORTS)%nat ->
  OutbreakService.detectOutbreaks now generateId reports0 = [].
Proof.
  intros Hfew. apply DetectorFacts.no_zone_when_sparse.
  intros a _.
  pose proof (DetectorMore.clusterOf_length
                (OutbreakService.candidatesOf now reports0) a).
  lia.
Qed.

Lemma too_few_candidates_no_zone_witness :
  OutbreakService.detectOutbreaks 1700000000000 (fun _ => "z"%string)
    [Sample.q1; Sample.q2; Sample.serverCopy] = [].
Proof.
  apply (too_few_candidates_no_zone 1700000000000 (fun _ => "z"%string)).
  vm_compute. lia.
Defined.

(** X16.  The result of [detectOutbreaks] depends on the order of its
    input: there are two orders of the same reports that give
    different numbers of zones. *)
Theorem detectOutbreaks_depends_on_order
    (now : Z) (generateId : nat -> string) :
  exists l l' : list InvasiveReport,
    Permutation l l'
    /\ length (OutbreakService.detectOutbreaks now generateId l)
       <> length (OutbreakService.detectOutbreaks now generateId l').
Proof.
  exists (Sample.chain now), (Sample2.chainFromMiddle now).
  split; [apply DetectorRuns2.chain_permuted|].
  rewrite DetectorRuns.detect_chain, DetectorRuns2.detect_chainFromMiddle.
  discriminate.
Qed.

(** X17.  Being within the radius is reflexive and symmetric, but not
    transitive: two reports within the radius of a third need not be
    within the radius of each other. *)
Theorem withinRadius_not_transitive :
  (forall a, OutbreakService.withinRadius a a = true)
  /\ (forall a b,
        OutbreakService.withinRadius a b = OutbreakService.withinRadius b a)
  /\ ~ (forall a b c,
          OutbreakService.withinRadius a b = true ->
          OutbreakService.withinRadius b c = true ->
          OutbreakService.withinRadius a c = true).
Proof.
  split; [apply DetectorMore.withinRadius_refl|].
  split; [apply DetectorMore.withinRadius_sym|].
  intros Htrans.
  destruct (DetectorRuns2.chain_not_transitive 0) as [Hab [Hbf Haf]].
  rewrite (Htrans _ _ _ Hab Hbf) in Haf. discriminate.
Qed.

(** X18.  Reports that do not qualify never change the result: a
    report that is not high-risk, or is outside the time window, can
    be removed from the input without changing the zones. *)
Theorem unqualified_report_is_ignored
    (now : Z) (generateId : nat -> string)
    (before after : list InvasiveReport) (r : InvasiveReport) :
  OutbreakService.isHighRisk r
  && Geo.isWithinDays now (timestamp r) OUTBREAK_CONFIG.TIME_WINDOW_DAYS
  = false ->
  OutbreakService.detectOutbreaks now generateId (before ++ r :: after)
  = OutbreakService.detectOutbreaks now generateId (before ++ after).
Proof.
  intros Hout. unfold OutbreakService.detectOutbreaks.
  assert (E : OutbreakService.candidatesOf now (before ++ r :: after)
              = OutbreakService.candidatesOf now (before ++ after)).
  { unfold OutbreakService.candidatesOf. rewrite !filter_app. simpl.
    now rewrite Hout. }
  now rewrite E.
Qed.

Lemma unqualified_report_is_ignored_witness :
  let now := 1700000000000%Z in
  OutbreakService.detectOutbreaks now (fun _ => "z"%string)
    (Sample.q1 :: Sample.fiveNear now)
  = OutbreakService.detectOutbreaks now (fun _ => "z"%string)
      (Sample.fiveNear now).
Proof.
  intros now.
  apply (unqualified_report_is_ignored now (fun _ => "z"%string)
           [] (Sample.fiveNear now) Sample.q1).
  reflexivity.
Defined.

(* ------------------------------------------------------------------ *)
(** * More on the sync engine *)

Module SyncMore.

Import StorageService SyncOutcome.

Lemma notified_worldAfter (remote : Remote) (w : World) (r : InvasiveReport) :
  notified (worldAfter remote w r)
  = notified w
    ++ [ withSyncStatus r syncing;
         if accepted remote r
         then withSyncStatus (finalOf remote r) uploaded
         else withSyncStatus r failed ].
Proof.
  unfold worldAfter. destruct (accepted remote r); simpl;
    now rewrite <- app_assoc.
Qed.

Lemma notified_run (remote : Remote) (l : list InvasiveReport) :
  forall w,
    notified (fold_left (worldAfter remote) l w)
    = notified w
      ++ flat_map
           (fun r => [ withSyncStatus r syncing;
                       if accepted remote r
                       then withSyncStatus (finalOf remote r) uploaded
                       else withSyncStatus r failed ]) l.
Proof.
  induction l as [|r l IH]; intros w; simpl.
  - now rewrite app_nil_r.
  - rewrite IH, notified_worldAfter, <- app_assoc. reflexivity.
Qed.

(** ** Ids through the store operations of a pass *)

Lemma markReportSynced_ids (i : string) (s : Storage) :
  NoDup (map id (PENDING_REPORTS s)) ->
  Permutation (storedIds (markReportSynced i s)) (storedIds s).
Proof.
  intros Hnd. unfold markReportSynced, getPendingReports, getSyncedReports.
  destruct (find (fun r => String.eqb (id r) i) (PENDING_REPORTS s))
    as [target|] eqn:F; [|reflexivity].
  apply find_some in F. destruct F as [Hin E]. apply String.eqb_eq in E.
  unfold storedIds. simpl. rewrite map_app, ids_drop. simpl. rewrite E.
  apply (Permutation_count_occ string_dec). intros j.
  rewrite !count_occ_app, StoreMore.count_drop. simpl.
  assert (Hone : count_occ string_dec (map id (PENDING_REPORTS s)) i
                 = 1%nat).
  { apply NoDup_count_occ'; [assumption|].
    rewrite <- E. now apply in_map. }
  destruct (String.eqb j i) eqn:Ej.
  - apply String.eqb_eq in Ej. subst j.
    destruct (string_dec i i) as [_|Hne]; [lia|now elim Hne].
  - apply String.eqb_neq in Ej.
    destruct (string_dec i j) as [Heq|_]; [now elim Ej|lia].
Qed.

Lemma markReportSynced_pending_ids (i : string) (s : Storage) :
  NoDup (map id (PENDING_REPORTS s)) ->
  NoDup (map id (PENDING_REPORTS (markReportSynced i s))).
Proof.
  intros Hnd. unfold markReportSynced, getPendingReports.
  destruct (find _ _); [|assumption].
  simpl. now apply PassFacts.NoDup_ids_filter.
Qed.

Lemma storeAfter_ids (remote : Remote) (s : Storage) (x : InvasiveReport) :
  NoDup (map id (PENDING_REPORTS s)) ->
  NoDup (map id (PENDING_REPORTS (storeAfter remote s x)))
  /\ Permutation (storedIds (storeAfter remote s x)) (storedIds s).
Proof.
  intros Hnd. unfold storeAfter.
  assert (H1 : NoDup (map id (PENDING_REPORTS
                                (updateReportStatus (id x) syncing s)))).
  { unfold updateReportStatus, getPendingReports. simpl.
    now rewrite ids_restatus. }
  destruct (accepted remote x).
  - split; [now apply markReportSynced_pending_ids|].
    rewrite (markReportSynced_ids _ _ H1).
    now rewrite StoreFacts.updateReportStatus_ids.
  - split.
    + unfold updateReportStatus at 1, getPendingReports. simpl.
      now rewrite ids_restatus.
    + now rewrite !StoreFacts.updateReportStatus_ids.
Qed.

Lemma storeAfter_run_ids (remote : Remote) (l : list InvasiveReport) :
  forall s,
    NoDup (map id (PENDING_REPORTS s)) ->
    Permutation (storedIds (fold_left (storeAfter remote) l s))
                (storedIds s).
Proof.
  induction l as [|x l IH]; intros s Hnd; [reflexivity|].
  destruct (storeAfter_ids remote s x Hnd) as [Hnd' Hperm].
  simpl. now rewrite (IH _ Hnd').
Qed.

(** ** What is left to retry *)

Lemma retry_set (remote : Remote) (pend : list InvasiveReport) :
  filter pendingOrFailed (flat_map (settlePass remote) pend)
  = map (fun r => withSyncStatus r failed)
      (filter (fun r => negb (accepted remote r))
         (filter pendingOrFailed pend)).
Proof.
  induction pend as [|r pend IH]; [reflexivity|].
  simpl. rewrite filter_app, IH. unfold settlePass at 1.
  destruct (pendingOrFailed r) eqn:E; simpl.
  - destruct (accepted remote r); reflexivity.
  - now rewrite E.
Qed.

Lemma none_rejected (remote : Remote) (l : list InvasiveReport) :
  (forall r, In r l -> pendingOrFailed r = true ->
             accepted remote r = true) ->
  filter (fun r => negb (accepted remote r)) (filter pendingOrFailed l)
  = [].
Proof.
  induction l as [|r l IH]; intros Hall; [reflexivity|].
  simpl. destruct (pendingOrFailed r) eqn:E; simpl.
  - rewrite (Hall r (or_introl eq_refl) E). simpl.
    apply IH. intros r0 Hr0. apply Hall. now right.
  - apply IH. intros r0 Hr0. apply Hall. now right.
Qed.

End SyncMore.

(** X19.  The guard of [runSync]: a call made while [isSyncing] is set,
    or while offline, returns without any change of state; a call made
    while it is clear leaves it clear when the promise settles,
    whether the pass returned or threw. *)
Theorem runSync_guard (remote : Remote) (w : World) :
  (isSyncing w = true -> SyncManager.runSync remote w = (Normal tt, w))
  /\ (isSyncing w = false -> netIsConnected remote = false ->
      SyncManager.runSync remote w = (Normal tt, w))
  /\ (isSyncing w = false ->
      isSyncing (snd (SyncManager.runSync remote w)) = false).
Proof.
  split; [apply GuardFacts.runSync_busy|].
  split; [apply GuardFacts.runSync_offline|apply GuardFacts.runSync_releases].
Qed.

Lemma runSync_guard_witness :
  isSyncing (snd (SyncManager.runSync Sample.listenerFails
                    Sample.threePending)) = false
  /\ fst (SyncManager.runSync Sample.listenerFails Sample.threePending)
     = Thrown "listener".
Proof.
  destruct (runSync_guard Sample.listenerFails Sample.threePending)
    as [_ [_ Hrelease]].
  split; [apply Hrelease; reflexivity|reflexivity].
Defined.

(** X20.  In a pass with listeners that do not throw, the listeners
    are notified twice for each selected record, in the order of the
    pending bucket: first with status syncing, then with uploaded or
    failed.  The notification of an upload carries the prediction
    obtained during the pass. *)
Theorem notifications_in_order (remote : Remote) (w : World) :
  isSyncing w = false ->
  netIsConnected remote = true ->
  (forall r, listenerThrows remote r = false) ->
  exists w',
    SyncManager.runSync remote w = (Normal tt, w')
    /\ notified w'
       = notified w
         ++ flat_map
              (fun r =>
                 [ withSyncStatus r syncing;
                   if SyncOutcome.accepted remote r
                   then withSyncStatus (SyncOutcome.finalOf remote r)
                          uploaded
                   else withSyncStatus r failed ])
              (filter pendingOrFailed (PENDING_REPORTS (storage w))).
Proof.
  intros Hidle Hnet Hquiet.
  eexists. split; [now apply RunFacts.pass_returns|].
  simpl. now rewrite SyncMore.notified_run.
Qed.

Lemma notifications_in_order_witness :
  exists w',
    SyncManager.runSync Sample.secondUploadFails Sample.threePending
    = (Normal tt, w')
    /\ map (fun r => (id r, syncStatus r)) (notified w')
       = [ ("q1", syncing); ("q1", uploaded);
           ("q2", syncing); ("q2", failed);
           ("q3", syncing); ("q3", uploaded) ]%string.
Proof.
  destruct (notifications_in_order Sample.secondUploadFails
              Sample.threePending) as [w' [Hrun Hlog]];
    try reflexivity.
  exists w'. split; [exact Hrun|]. rewrite Hlog. reflexivity.
Defined.

(** X21.  A record of the pending bucket whose status is syncing (left
    so by an interrupted pass) or uploaded is never selected: over a
    pending bucket of distinct ids a pass leaves it in the pending
    bucket as it is and uploads nothing under its id. *)
Theorem syncing_record_is_never_retried
    (remote : Remote) (w : World) (r : InvasiveReport) :
  isSyncing w = false ->
  netIsConnected remote = true ->
  (forall r0, listenerThrows remote r0 = false) ->
  NoDup (map id (PENDING_REPORTS (storage w))) ->
  In r (PENDING_REPORTS (storage w)) ->
  pendingOrFailed r = false ->
  exists w' uploads,
    SyncManager.runSync remote w = (Normal tt, w')
    /\ In r (PENDING_REPORTS (storage w'))
    /\ uploadCalls w' = uploadCalls w ++ uploads
    /\ forall p, In p uploads -> p_id p <> id r.
Proof.
  intros Hidle Hnet Hquiet Hnd Hr Hstuck.
  eexists. eexists. split; [now apply RunFacts.pass_returns|].
  split; [|split; [apply RunFacts.pass_uploads|]].
  - rewrite RunFacts.pass_pending by assumption.
    apply in_flat_map. exists r. split; [assumption|].
    unfold SyncOutcome.settlePass. rewrite Hstuck. now left.
  - intros p Hp E. apply in_map_iff in Hp. destruct Hp as [r0 [<- Hr0]].
    apply filter_In in Hr0. destruct Hr0 as [Hr0 Hsel].
    simpl in E. rewrite SyncFacts.id_finalOf in E.
    assert (r0 = r) as -> by now apply (PassFacts.same_id_same_report _ _ _ Hnd).
    congruence.
Qed.

Lemma syncing_record_is_never_retried_witness :
  exists w',
    SyncManager.runSync Sample2.allGood Sample2.withStuck = (Normal tt, w')
    /\ In Sample2.stuck (PENDING_REPORTS (storage w')).
Proof.
  destruct (syncing_record_is_never_retried Sample2.allGood
              Sample2.withStuck Sample2.stuck)
    as [w' [uploads [Hrun [Hin _]]]]; try reflexivity.
  - simpl. repeat constructor; simpl; intuition discriminate.
  - simpl. tauto.
  - exists w'. split; assumption.
Defined.

(** X22.  A pass loses no record and creates none: with listeners that
    do not throw and a pending bucket of distinct ids, the ids stored
    after [runSync] are those stored before, and if no id was stored
    twice before, none is after. *)
Theorem runSync_keeps_stored_ids (remote : Remote) (w : World) :
  (forall r, listenerThrows remote r = false) ->
  NoDup (map id (PENDING_REPORTS (storage w))) ->
  exists w',
    SyncManager.runSync remote w = (Normal tt, w')
    /\ Permutation (StorageService.storedIds (storage w'))
                   (StorageService.storedIds (storage w))
    /\ (NoDup (StorageService.storedIds (storage w)) ->
        NoDup (StorageService.storedIds (storage w'))).
Proof.
  intros Hquiet Hnd.
  assert (Hsame : forall w',
    Permutation (StorageService.storedIds (storage w'))
                (StorageService.storedIds (storage w)) ->
    Permutation (StorageService.storedIds (storage w'))
                (StorageService.storedIds (storage w))
    /\ (NoDup (StorageService.storedIds (storage w)) ->
        NoDup (StorageService.storedIds (storage w')))).
  { intros w' P. split; [exact P|]. intros H.
    apply (Permutation_NoDup (Permutation_sym P) H). }
  destruct (isSyncing w) eqn:Hbusy.
  - exists w. split; [now apply GuardFacts.runSync_busy|].
    now apply Hsame.
  - destruct (netIsConnected remote) eqn:Hnet.
    + eexists. split; [now apply RunFacts.pass_returns|].
      apply Hsame. simpl. rewrite SyncFacts.storage_run. simpl.
      now apply SyncMore.storeAfter_run_ids.
    + exists w. split; [now apply GuardFacts.runSync_offline|].
      now apply Hsame.
Qed.

Lemma runSync_keeps_stored_ids_witness :
  exists w',
    SyncManager.runSync Sample.secondUploadFails Sample.threePending
    = (Normal tt, w')
    /\ Permutation (StorageService.storedIds (storage w'))
                   ["q1"; "q2"; "q3"]%string.
Proof.
  destruct (runSync_keeps_stored_ids Sample.secondUploadFails
              Sample.threePending) as [w' [Hrun [Hperm _]]].
  - reflexivity.
  - simpl. repeat constructor; simpl; intuition discriminate.
  - exists w'. split; [exact Hrun|exact Hperm].
Defined.

(** X23.  After a pass over a pending bucket of distinct ids, the
    records that the next pass will select are exactly the records
    whose upload was rejected, now failed.  When every upload was
    accepted nothing is left to select, and a further [runSync]
    neither uploads nor changes the store. *)
Theorem next_pass_retries_the_rejected (remote : Remote) (w : World) :
  isSyncing w = false ->
  netIsConnected remote = true ->
  (forall r, listenerThrows remote r = false) ->
  NoDup (map id (PENDING_REPORTS (storage w))) ->
  exists w1,
    SyncManager.runSync remote w = (Normal tt, w1)
    /\ filter pendingOrFailed (PENDING_REPORTS (storage w1))
       = map (fun r => withSyncStatus r failed)
           (filter (fun r => negb (SyncOutcome.accepted remote r))
              (filter pendingOrFailed (PENDING_REPORTS (storage w))))
    /\ ((forall r, In r (PENDING_REPORTS (storage w)) ->
                   pendingOrFailed r = true ->
                   SyncOutcome.accepted remote r = true) ->
        forall remote',
          (forall r, listenerThrows remote' r = false) ->
          exists w2,
            SyncManager.runSync remote' w1 = (Normal tt, w2)
            /\ storage w2 = storage w1
            /\ uploadCalls w2 = uploadCalls w1).
Proof.
  intros Hidle Hnet Hquiet Hnd.
  pose proof (RunFacts.pass_returns remote w Hidle Hnet Hquiet) as Hrun.
  pose proof (RunFacts.pass_pending remote w Hnd) as Hpending.
  set (w1 := setIsSyncing false
               (fold_left (SyncOutcome.worldAfter remote)
                  (filter pendingOrFailed (PENDING_REPORTS (storage w)))
                  (setIsSyncing true w))) in *.
  assert (Hidle1 : isSyncing w1 = false) by reflexivity.
  clearbody w1.
  exists w1. split; [exact Hrun|].
  assert (Hretry :
    filter pendingOrFailed (PENDING_REPORTS (storage w1))
    = map (fun r => withSyncStatus r failed)
        (filter (fun r => negb (SyncOutcome.accepted remote r))
           (filter pendingOrFailed (PENDING_REPORTS (storage w))))).
  { rewrite Hpending. apply SyncMore.retry_set. }
  split; [exact Hretry|].
  intros Hall remote' Hquiet'.
  rewrite (SyncMore.none_rejected remote _ Hall) in Hretry.
  simpl in Hretry.
  destruct (netIsConnected remote') eqn:Hnet'.
  - eexists. split.
    + apply RunFacts.pass_returns; trivial.
    + rewrite Hretry. split; reflexivity.
  - eexists. split; [now apply GuardFacts.runSync_offline|].
    split; reflexivity.
Qed.

Lemma next_pass_retries_the_rejected_witness :
  exists w1,
    SyncManager.runSync Sample.secondUploadFails Sample.threePending
    = (Normal tt, w1)
    /\ filter pendingOrFailed (PENDING_REPORTS (storage w1))
       = [withSyncStatus Sample.q2 failed].
Proof.
  destruct (next_pass_retries_the_rejected Sample.secondUploadFails
              Sample.threePending) as [w1 [Hrun [Hretry _]]];
    try reflexivity.
  - simpl. repeat constructor; simpl; intuition discriminate.
  - exists w1. split; [exact Hrun|]. rewrite Hretry. reflexivity.
Defined.

(* ------------------------------------------------------------------ *)
(** * The registry of listeners *)

Module RegistryFacts.

Section Registry.

Variable Listener : Type.
Variable same : forall a b : Listener, {a = b} + {a <> b}.

Local Abbreviation unsubscribe := (Listeners.unsubscribe Listener same).

Lemma unsubscribe_absent (ls : list Listener) (l : Listener) :
  ~ In l ls -> unsubscribe ls l = ls.
Proof.
  induction ls as [|x ls IH]; simpl; [reflexivity|].
  intros Hout. destruct (same x l) as [->|_].
  - exfalso. apply Hout. now left.
  - rewrite IH; [reflexivity|]. intros H. apply Hout. now right.
Qed.

Lemma unsubscribe_count (ls : list Listener) (l l' : Listener) :
  count_occ same (unsubscribe ls l) l'
  = if same l l' then pred (count_occ same ls l')
    else count_occ same ls l'.
Proof.
  induction ls as [|x ls IH]; simpl.
  - now destruct (same l l').
  - destruct (same x l) as [->|Hxl].
    + destruct (same l l'); reflexivity.
    + simpl. rewrite IH.
      destruct (same l l') as [<-|Hll'].
      * destruct (same x l) as [->|_]; [now elim Hxl|reflexivity].
      * reflexivity.
Qed.

Lemma unsubscribe_pushed (ls : list Listener) (l : Listener) :
  ~ In l ls -> unsubscribe (Listeners.push Listener ls l) l = ls.
Proof.
  unfold Listeners.push.
  induction ls as [|x ls IH]; simpl; intros Hout.
  - destruct (same l l) as [_|Hne]; [reflexivity|now elim Hne].
  - destruct (same x l) as [->|_].
    + exfalso. apply Hout. now left.
    + rewrite IH; [reflexivity|]. intros H. apply Hout. now right.
Qed.

End Registry.

End RegistryFacts.

(** X24.  The function returned by [onReportSyncUpdate] removes one
    registration of its listener, the first in the registry, and
    touches no other listener; called right after the subscription of
    a listener that was not registered, it restores the registry;
    called when the listener is not registered, it does nothing.  A
    second call therefore removes another registration of the same
    function when there is one. *)
Theorem unsubscribe_removes_one
    (Listener : Type) (same : forall a b : Listener, {a = b} + {a <> b})
    (listeners : list Listener) (listener : Listener) :
  let registered := fst (Listeners.onReportSyncUpdate Listener same
                           listeners listener) in
  let unsubscribe := snd (Listeners.onReportSyncUpdate Listener same
                            listeners listener) in
  count_occ same registered listener
  = S (count_occ same listeners listener)
  /\ (forall current other,
        count_occ same (unsubscribe current) other
        = if same listener other
          then pred (count_occ same current other)
          else count_occ same current other)
  /\ (forall current,
        ~ In listener current -> unsubscribe current = current)
  /\ (~ In listener listeners -> unsubscribe registered = listeners)
  /\ Permutation (unsubscribe registered) listeners.
Proof.
  simpl. split; [|split; [|split; [|split]]].
  - unfold Listeners.push. rewrite count_occ_app. simpl.
    destruct (same listener listener) as [_|Hne]; [lia|now elim Hne].
  - intros current other. apply RegistryFacts.unsubscribe_count.
  - intros current. apply RegistryFacts.unsubscribe_absent.
  - apply RegistryFacts.unsubscribe_pushed.
  - apply (Permutation_count_occ same). intros other.
    rewrite RegistryFacts.unsubscribe_count.
    unfold Listeners.push. rewrite count_occ_app. simpl.
    destruct (same listener other) as [_|_]; lia.
Qed.

Lemma unsubscribe_removes_one_witness :
  snd (Listeners.onReportSyncUpdate nat Nat.eq_dec [1; 2]%nat 3%nat)
    (fst (Listeners.onReportSyncUpdate nat Nat.eq_dec [1; 2]%nat 3%nat))
  = [1; 2]%nat.
Proof.
  destruct (unsubscribe_removes_one nat Nat.eq_dec [1; 2]%nat 3%nat)
    as [_ [_ [_ [Hback _]]]].
  apply Hback. simpl. lia.
Defined.

(* ------------------------------------------------------------------ *)
(** * More on the reports context *)

Module ContextMore.

Import ReportsContext RefreshOutcome.

Lemma refresh_result (remote : Remote) (now : Z)
    (generateId : nat -> string) (w : World) :
  refresh remote now generateId w
  = (Normal tt, refreshed remote now generateId w).
Proof.
  unfold refresh, bind, tryFinally, modify, gets.
  rewrite RefreshFacts.fetch_or_empty. reflexivity.
Qed.

Lemma filter_perm {A : Type} (f : A -> bool) (l l' : list A) :
  Permutation l l' -> Permutation (filter f l) (filter f l').
Proof.
  induction 1 as [|x l l' _ IH|x y l|l1 l2 l3 _ IH1 _ IH2]; simpl.
  - constructor.
  - destruct (f x); [now constructor|assumption].
  - destruct (f x), (f y); try reflexivity. apply perm_swap.
  - now transitivity (filter f l2).
Qed.

Lemma localOnly_selected (local serverReports : list InvasiveReport) :
  filter pendingOrFailed (localOnly local serverReports)
  = localOnly local serverReports.
Proof.
  unfold localOnly. apply forallb_filter_id. apply forallb_forall.
  intros r Hr. apply filter_In in Hr. destruct Hr as [_ Hr].
  apply andb_true_iff in Hr. tauto.
Qed.

Lemma filter_none {A : Type} (f : A -> bool) (l : list A) :
  (forall a, In a l -> f a = false) -> filter f l = [].
Proof.
  induction l as [|a l IH]; intros H; simpl; [reflexivity|].
  rewrite (H a (or_introl eq_refl)). apply IH. intros b Hb. apply H.
  now right.
Qed.

Lemma runSync_quiet (remote : Remote) (w : World) :
  (forall r, listenerThrows remote r = false) ->
  exists w1,
    SyncManager.runSync remote w = (Normal tt, w1)
    /\ (isSyncing w = false -> isSyncing w1 = false).
Proof.
  intros Hquiet. destruct (isSyncing w) eqn:Hbusy.
  - exists w. split; [now apply GuardFacts.runSync_busy|discriminate].
  - destruct (netIsConnected remote) eqn:Hnet.
    + eexists. split; [now apply RunFacts.pass_returns|reflexivity].
    + exists w. split; [now apply GuardFacts.runSync_offline|trivial].
Qed.

End ContextMore.

(** X25.  [refresh] publishes the merged view most recent first and
    the zones detected on that very view, and writes neither the
    store nor the state of the sync engine. *)
Theorem refresh_publishes_sorted_view
    (remote : Remote) (now : Z) (generateId : nat -> string) (w : World) :
  exists w',
    ReportsContext.refresh remote now generateId w = (Normal tt, w')
    /\ StronglySorted notOlder (ctxReports w')
    /\ ctxOutbreakZones w'
       = OutbreakService.detectOutbreaks now generateId (ctxReports w')
    /\ storage w' = storage w
    /\ isSyncing w' = isSyncing w
    /\ uploadCalls w' = uploadCalls w
    /\ notified w' = notified w.
Proof.
  eexists. split; [apply ContextMore.refresh_result|].
  split; [apply SortFacts.sort_sorted|]. repeat split.
Qed.

(** X26.  [addReport] stores the report in the pending bucket and
    refreshes; a report saved as pending or failed is then in the
    published view, unless the server fetch lists its id, in which
    case the server's record stands for it. *)
Theorem addReport_shows_the_report
    (remote : Remote) (now : Z) (generateId : nat -> string)
    (report : InvasiveReport) (w : World) :
  pendingOrFailed report = true ->
  exists w',
    ReportsContext.addReport remote now generateId report w
    = (Normal tt, w')
    /\ In report (PENDING_REPORTS (storage w'))
    /\ (In report (ctxReports w')
        \/ In (id report) (map id (RefreshOutcome.serverSet remote)))
    /\ (fetchAnswer remote = None -> In report (ctxReports w')).
Proof.
  intros Hsel.
  unfold ReportsContext.addReport, bind, modify.
  rewrite ContextMore.refresh_result.
  eexists. split; [reflexivity|].
  assert (Hsaved : In report
            (PENDING_REPORTS
               (StorageService.saveReport report (storage w)))).
  { unfold StorageService.saveReport. simpl.
    apply in_or_app. right. now left. }
  assert (Hview :
    ~ In (id report) (map id (RefreshOutcome.serverSet remote)) ->
    In report
      (ReportsContext.mergedView
         (StorageService.getAllReports
            (StorageService.saveReport report (storage w)))
         (RefreshOutcome.serverSet remote))).
  { intros Hnew.
    apply (Permutation_in _
             (Permutation_sym (MergeFacts.mergedView_perm _ _))).
    apply in_or_app. right. apply MergeFacts.localOnly_In.
    split; [|split; [exact Hnew|now apply pendingOrFailed_iff]].
    apply RefreshFacts.getAllReports_In. now left. }
  split; [exact Hsaved|]. split.
  - destruct (in_dec string_dec (id report)
                (map id (RefreshOutcome.serverSet remote)))
      as [Hthere|Hnew]; [now right|left; now apply Hview].
  - intros Hoff. apply Hview.
    unfold RefreshOutcome.serverSet. now rewrite Hoff.
Qed.

Lemma addReport_shows_the_report_witness :
  exists w',
    ReportsContext.addReport Sample.secondUploadFails 1700000000000
      (fun _ => "z"%string) Sample.r1 Sample.threePending
    = (Normal tt, w')
    /\ In Sample.r1 (ctxReports w').
Proof.
  destruct (addReport_shows_the_report Sample.secondUploadFails
              1700000000000 (fun _ => "z"%string) Sample.r1
              Sample.threePending) as [w' [Hrun [_ [_ Hoff]]]].
  - reflexivity.
  - exists w'. split; [exact Hrun|]. now apply Hoff.
Defined.

(** X27.  Every report made by [fetchAllReports] from a row of the
    server has status uploaded, so after a [refresh] that fetched
    them [pendingCount] counts local reports only: it is the number
    of local records, pending or failed, whose id the server does not
    list. *)
Theorem pendingCount_counts_local_only
    (remote : Remote) (now : Z) (generateId : nat -> string) (w : World)
    (response : option (list ApiService.ServerRow)) :
  fetchAnswer remote = ApiService.fetched response ->
  (forall r, In r (RefreshOutcome.serverSet remote) ->
             syncStatus r = uploaded)
  /\ exists w',
       ReportsContext.refresh remote now generateId w = (Normal tt, w')
       /\ ReportsContext.pendingCount w'
          = length
              (ReportsContext.localOnly
                 (StorageService.getAllReports (storage w))
                 (RefreshOutcome.serverSet remote)).
Proof.
  intros Hfetch.
  assert (Hup : forall r, In r (RefreshOutcome.serverSet remote) ->
                          syncStatus r = uploaded).
  { intros r. unfold RefreshOutcome.serverSet. rewrite Hfetch.
    destruct response as [rows|]; simpl; [|contradiction].
    intros Hr. apply in_map_iff in Hr. destruct Hr as [row [<- _]].
    reflexivity. }
  split; [exact Hup|].
  eexists. split; [apply ContextMore.refresh_result|].
  unfold ReportsContext.pendingCount. simpl.
  rewrite (Permutation_length
             (ContextMore.filter_perm pendingOrFailed _ _
                (MergeFacts.mergedView_perm _ _))).
  rewrite filter_app, ContextMore.localOnly_selected.
  rewrite ContextMore.filter_none; [reflexivity|].
  intros r Hr. unfold pendingOrFailed. now rewrite (Hup r Hr).
Qed.

Lemma pendingCount_counts_local_only_witness :
  exists w',
    ReportsContext.refresh Sample2.serverHasS1 1700000000000
      (fun _ => "z"%string) Sample2.localS1andN1
    = (Normal tt, w')
    /\ ReportsContext.pendingCount w' = 1%nat.
Proof.
  destruct (pendingCount_counts_local_only Sample2.serverHasS1
              1700000000000 (fun _ => "z"%string) Sample2.localS1andN1
              (Some [Sample2.row1])) as [_ [w' [Hrun Hcount]]].
  - reflexivity.
  - exists w'. split; [exact Hrun|]. rewrite Hcount. reflexivity.
Defined.

(** X28.  With listeners that do not throw, [triggerSync] returns
    normally with [isRefreshing] false, leaves [isSyncing] clear when
    it was, and publishes the view of the store as the pass left
    it. *)
Theorem triggerSync_syncs_then_refreshes
    (remote : Remote) (now : Z) (generateId : nat -> string) (w : World) :
  (forall r, listenerThrows remote r = false) ->
  exists w1 w',
    SyncManager.runSync remote w = (Normal tt, w1)
    /\ ReportsContext.triggerSync remote now generateId w = (Normal tt, w')
    /\ storage w' = storage w1
    /\ ctxReports w'
       = ReportsContext.mergedView
           (StorageService.getAllReports (storage w1))
           (RefreshOutcome.serverSet remote)
    /\ isRefreshing w' = false
    /\ (isSyncing w = false -> isSyncing w' = false).
Proof.
  intros Hquiet.
  destruct (ContextMore.runSync_quiet remote w Hquiet) as [w1 [Hrun Hflag]].
  exists w1. eexists. split; [exact Hrun|]. split.
  - unfold ReportsContext.triggerSync, bind. rewrite Hrun.
    apply ContextMore.refresh_result.
  - repeat split. exact Hflag.
Qed.

Lemma triggerSync_syncs_then_refreshes_witness :
  exists w',
    ReportsContext.triggerSync Sample.secondUploadFails 1700000000000
      (fun _ => "z"%string) Sample.threePending
    = (Normal tt, w')
    /\ ctxReports w' = [withSyncStatus Sample.q2 failed].
Proof.
  destruct (triggerSync_syncs_then_refreshes Sample.secondUploadFails
              1700000000000 (fun _ => "z"%string) Sample.threePending)
    as [w1 [w' [Hsync [Hrun [_ [Hview _]]]]]].
  - reflexivity.
  - exists w'. split; [exact Hrun|]. rewrite Hview.
    vm_compute in Hsync. injection Hsync as <-. vm_compute. reflexivity.
Defined.
